(** * CheevO! API proxy (Cloudflare worker): a shallow embedding

    The worker of [src/unnamed/part_000] (the "v2" proxy: rate limiter,
    response cache, Anthropic route, CORS whitelist) is embedded as pure
    functions over an explicit store.  The two process-wide [Map]s become
    [gmap]s threaded through every call, [Date.now()] becomes an explicit
    reading, and the outbound [fetch] becomes a function of the request sent.
    The older worker of [src/worker.js] is embedded in [Module Legacy]. *)

From Stdlib Require Import ZArith QArith Qcanon String Ascii List Bool Lia.
From Stdlib Require Import DecimalString.
From stdpp Require Import base numbers gmap strings list fin_maps.

Set Warnings "-register-all".

Open Scope Z_scope.
Open Scope string_scope.
Open Scope list_scope.

(** ** JavaScript values *)

Module JS.

(** A JavaScript number.  Finite values are kept as exact rationals in
    canonical form (so that equal numbers are equal terms); [Math.min] only
    compares, and comparison commutes with the rounding of a decimal literal
    to a double.  Infinities are not represented. *)
Inductive number : Type :=
| NaN
| Fin (q : Qc).

(** A value as [JSON.parse] produces it, plus [undefined] for a property
    that is missing.  An object is the list of its own properties. *)
Inductive value : Type :=
| VUndefined
| VNull
| VBool (b : bool)
| VNum (n : number)
| VStr (s : string)
| VArr (items : list value)
| VObj (props : list (string * value)).

Definition num (z : Z) : value := VNum (Fin (Q2Qc (inject_Z z))).
Definition dec (n : Z) (d : positive) : value := VNum (Fin (Q2Qc (n # d))).

(** [ToBoolean]. *)
Definition truthy (v : value) : bool :=
  match v with
  | VUndefined | VNull => false
  | VBool b => b
  | VNum NaN => false
  | VNum (Fin q) => negb (Qeq_bool q 0)
  | VStr s => negb (String.eqb s "")
  | VArr _ | VObj _ => true
  end.

(** [a || b]. *)
Definition or_else (a b : value) : value := if truthy a then a else b.

Definition isArray (v : value) : bool :=
  match v with VArr _ => true | _ => false end.

Fixpoint assoc (k : string) (props : list (string * value)) : option value :=
  match props with
  | [] => None
  | (k', v) :: rest => if String.eqb k k' then Some v else assoc k rest
  end.

(** [v.k] for a key [k] that no prototype defines (the worker reads only
    [messages], [max_tokens], [model], [temperature] and [system]).
    [None] is the [TypeError] of reading a property of [null] or [undefined]. *)
Definition get (v : value) (k : string) : option value :=
  match v with
  | VUndefined | VNull => None
  | VObj props => Some (default VUndefined (assoc k props))
  | _ => Some VUndefined
  end.

(** [ToNumber].  On strings, arrays and objects it goes through the
    language's string-to-number grammar, which the worker does not define:
    that part is the parameter [other]. *)
Definition ToNumber (other : value -> number) (v : value) : number :=
  match v with
  | VUndefined => NaN
  | VNull => Fin 0%Qc
  | VBool b => Fin (if b then 1%Qc else 0%Qc)
  | VNum n => n
  | _ => other v
  end.

(** [Math.min(a, b)] on numbers. *)
Definition min (a b : number) : number :=
  match a, b with
  | Fin x, Fin y => if decide (x <= y)%Qc then Fin x else Fin y
  | _, _ => NaN
  end.

Definition Math_min (other : value -> number) (a b : value) : number :=
  min (ToNumber other a) (ToNumber other b).

(** [s.startsWith(p)], [s.slice(n)] for [n >= 0], [s.includes(c)] for a
    one-character [c]. *)
Fixpoint startsWith (s p : string) {struct p} : bool :=
  match p with
  | EmptyString => true
  | String c p' =>
      match s with
      | String c' s' => Ascii.eqb c' c && startsWith s' p'
      | EmptyString => false
      end
  end.

Fixpoint slice (n : nat) (s : string) : string :=
  match n, s with
  | O, _ => s
  | S n', String _ s' => slice n' s'
  | S _, EmptyString => EmptyString
  end.

Fixpoint includes (s : string) (c : ascii) : bool :=
  match s with
  | EmptyString => false
  | String a s' => Ascii.eqb a c || includes s' c
  end.

(** An optional string (a header, an environment variable) is truthy when
    it is present and not empty. *)
Definition present (o : option string) : bool :=
  match o with
  | Some s => negb (String.eqb s "")
  | None => false
  end.

(** [o || d] for an optional string. *)
Definition str_or (o : option string) (d : string) : string :=
  match o with
  | Some s => if String.eqb s "" then d else s
  | None => d
  end.

End JS.

(** ** Rate limiter ([checkRateLimit], part_000 lines 15-36) *)

Record RateLimitEntry : Type := mkRL { count : Z; resetAt : Z }.

Definition RATE_LIMIT_WINDOW : Z := 60000.
Definition RATE_LIMIT_MAX : Z := 20.

(** [now] is the value [Date.now()] returns inside the call.  The result is
    the table after the call and the verdict. *)
Definition checkRateLimit (now : Z) (ip : string)
    (rateLimitMap : gmap string RateLimitEntry)
  : gmap string RateLimitEntry * bool :=
  let entry :=
    match rateLimitMap !! ip with
    | Some e => e
    | None => mkRL 0 (now + RATE_LIMIT_WINDOW)
    end in
  let entry :=
    if decide (now > resetAt entry)
    then mkRL 0 (now + RATE_LIMIT_WINDOW)
    else entry in
  let entry := mkRL (count entry + 1) (resetAt entry) in
  let m := <[ip := entry]> rateLimitMap in
  let m :=
    if decide (Z.of_nat (size m) > 10000)
    then filter (fun kv : string * RateLimitEntry => ¬ (now > resetAt kv.2)) m
    else m in
  (m, bool_decide (count entry <= RATE_LIMIT_MAX)).

(** ** Response cache ([getCached], [setCache], part_000 lines 38-59) *)

Record CacheEntry : Type :=
  mkCE { body : string; status : Z; contentType : string; expiresAt : Z }.

Definition CACHE_TTL : Z := 300000.
Definition CACHEABLE_PREFIXES : list string := ["/api/kbo"].

Definition getCached (now : Z) (key : string)
    (responseCache : gmap string CacheEntry)
  : gmap string CacheEntry * option CacheEntry :=
  match responseCache !! key with
  | Some entry =>
      if decide (now < expiresAt entry)
      then (responseCache, Some entry)
      else (delete key responseCache, None)
  | None => (responseCache, None)
  end.

(** [setCache] reads the clock twice: [now_sweep] in the eviction loop and
    [now_put] for the new entry's expiry. *)
Definition setCache (now_sweep now_put : Z) (key body : string) (status : Z)
    (contentType : string) (responseCache : gmap string CacheEntry)
  : gmap string CacheEntry :=
  let c :=
    if decide (Z.of_nat (size responseCache) > 500)
    then filter (fun kv : string * CacheEntry => ¬ (now_sweep > expiresAt kv.2))
           responseCache
    else responseCache in
  <[key := mkCE body status contentType (now_put + CACHE_TTL)]> c.

(** ** The worker's surroundings *)

(** [env]: the operator's variables; an unset variable is [None]. *)
Record Env : Type := mkEnv {
  ALLOWED_ORIGIN : option string;
  CBEAPI_TOKEN : option string;
  GNEWS_API_KEY : option string;
  FINNHUB_KEY : option string;
  ANTHROPIC_API_KEY : option string
}.

(** The inbound request: [pathname] and [search] are the two parts of
    [new URL(request.url)] the worker reads, [json] is what
    [await request.json()] does: [inl msg] when it throws an error with
    message [msg], [inr v] when it yields [v]. *)
Record Request : Type := mkReq {
  method : string;
  pathname : string;
  search : string;
  hdr_Origin : option string;
  hdr_CF_Connecting_IP : option string;
  json : string + JS.value
}.

Inductive Body : Type :=
| BNull
| BText (s : string)
| BJson (v : JS.value).

(** A [Response] object.  [mkResp] is the object itself; the constructor
    that can refuse to build one is [new_Response] below. *)
Record Response : Type := mkResp {
  resp_status : Z;
  resp_headers : gmap string string;
  resp_body : Body
}.

(** [Response.json(data, { status })]. *)
Definition Response_json (data : JS.value) (st : Z) : Response :=
  mkResp st {[ "Content-Type" := "application/json" ]} (BJson data).

(** A request the worker sends out with the global [fetch]; [rq_body] is the
    object handed to [JSON.stringify]. *)
Record UpstreamRequest : Type := mkRq {
  rq_url : string;
  rq_method : string;
  rq_headers : list (string * string);
  rq_body : option JS.value
}.

(** What comes back once its text has been read. *)
Record UpstreamResponse : Type := mkUp {
  up_status : Z;
  up_contentType : option string;
  up_text : string
}.

Definition ok (u : UpstreamResponse) : bool :=
  bool_decide (200 <= up_status u <= 299).

(** What the runtime supplies to one run of the handler: the clock readings
    at the four places that call [Date.now()], the timestamp of the health
    answer, the language's number conversion on non-primitive operands, the
    outcome of an outbound call ([inl msg]: it throws with message [msg]),
    and the message of the error the [Response] constructor throws for a
    status it refuses. *)
Record World : Type := mkWorld {
  now_limit : Z;
  now_get : Z;
  now_sweep : Z;
  now_put : Z;
  isoNow : string;
  toNumber : JS.value -> JS.number;
  upstream : UpstreamRequest -> string + UpstreamResponse;
  constructor_message : Z -> string
}.

(** ** [new Response(body, { status, headers })]

    As the Fetch standard specifies it, the constructor throws a
    [RangeError] when the status is outside 200..599, and a [TypeError]
    when a body that is not [null], the empty text included, comes with a
    status that forbids one (101, 204, 205, 304).  Every body the worker passes with a status
    of its own choosing is [null] (the 204 preflight) or goes with a status
    that allows it; the statuses it takes from an upstream answer or from a
    cache entry come with a text body, the empty text included.  The
    message of the error is the runtime's ([constructor_message]). *)
Definition null_body_status (st : Z) : bool :=
  ((st =? 101) || (st =? 204) || (st =? 205) || (st =? 304))%Z.

Definition refused (st : Z) (b : Body) : bool :=
  bool_decide (st < 200 ∨ 599 < st)
  || (match b with BNull => false | _ => true end && null_body_status st).

(** [inl msg]: the constructor throws with message [msg]. *)
Definition new_Response (w : World) (b : Body) (st : Z)
    (headers : gmap string string) : string + Response :=
  if refused st b then inl (constructor_message w st)
  else inr (mkResp st headers b).

(** The two module-level tables. *)
Record Store : Type := mkStore {
  rateLimitMap : gmap string RateLimitEntry;
  responseCache : gmap string CacheEntry
}.

(** What a run does besides answering, in the order it does it. *)
Inductive Effect : Type :=
| ELimit (ip : string)
| EParseBody
| ECacheGet (key : string)
| EUpstream (rq : UpstreamRequest)
| ECachePut (key : string).

(** [response] is [None] when the handler throws instead of answering. *)
Record Outcome : Type := mkOut {
  response : option Response;
  store : Store;
  effects : list Effect
}.

(** ** Routes ([API_ROUTES], part_000 lines 61-97) *)

Record Route : Type := mkRoute {
  target : string;
  description : string;
  addHeaders : option (Env -> list (string * string));
  addKey : option (string -> Env -> string)
}.

Definition kbo_addHeaders (env : Env) : list (string * string) :=
  ((match CBEAPI_TOKEN env with
    | Some t => if JS.present (Some t) then [("Authorization", "Bearer " +:+ t)] else []
    | None => []
    end) ++ [("Accept-Language", "nl")])%list.

Definition query_key (param : string) (key : option string) (url : string) : string :=
  match key with
  | Some k =>
      if JS.present (Some k)
      then url +:+ (if JS.includes url "?"%char then "&" else "?") +:+ param +:+ k
      else url
  | None => url
  end.

Definition gnews_addKey (url : string) (env : Env) : string :=
  query_key "apikey=" (GNEWS_API_KEY env) url.

Definition finnhub_addKey (url : string) (env : Env) : string :=
  query_key "token=" (FINNHUB_KEY env) url.

Definition API_ROUTES : list (string * Route) :=
  [ ("/api/kbo",
     mkRoute "https://cbeapi.be/api" "KBO/CBE - Belgische bedrijfsdata"
       (Some kbo_addHeaders) None);
    ("/api/gnews",
     mkRoute "https://gnews.io/api/v4" "GNews - Nieuwsartikelen"
       None (Some gnews_addKey));
    ("/api/finnhub",
     mkRoute "https://finnhub.io/api/v1" "Finnhub - Beursdata"
       None (Some finnhub_addKey)) ].

(** [[...Object.keys(API_ROUTES), '/api/anthropic']]. *)
Definition route_list : JS.value :=
  JS.VArr (map (fun pr => JS.VStr pr.1) API_ROUTES ++ [JS.VStr "/api/anthropic"])%list.

(** [Object.entries(API_ROUTES).find(([prefix]) => pathname.startsWith(prefix))]. *)
Definition matchRoute (path : string) : option (string * Route) :=
  List.find (fun pr => JS.startsWith path pr.1) API_ROUTES.

(** [CACHEABLE_PREFIXES.some(p => pathname.startsWith(p))]. *)
Definition cacheable (path : string) : bool :=
  existsb (fun p => JS.startsWith path p) CACHEABLE_PREFIXES.

(** ** CORS ([corsResponse], part_000 lines 261-296)

    [corsResponse] is handed a [Response] object, so the constructor of
    line 292, which reuses that object's status and body, builds its
    answer. *)

Definition fixedOrigins : list string :=
  [ "https://meyermansheidi.github.io";
    "http://localhost:3000";
    "http://localhost:5500";
    "http://127.0.0.1:5500" ].

Definition allowedOrigins (env : Env) : list string :=
  match ALLOWED_ORIGIN env with
  | Some o =>
      if JS.present (Some o) && negb (bool_decide (o ∈ fixedOrigins))
      then (fixedOrigins ++ [o])%list
      else fixedOrigins
  | None => fixedOrigins
  end.

(** [allowedOrigins[0]]. *)
Definition firstOrigin (env : Env) : string := default "" (head (allowedOrigins env)).

Definition corsResponse (env : Env) (origin : string) (r : Response) : Response :=
  let headers := resp_headers r in
  let headers :=
    if bool_decide (origin ∈ allowedOrigins env)
    then <["Access-Control-Allow-Origin" := origin]> headers
    else if negb (JS.present (Some origin)) || String.eqb origin "null"
    then <["Access-Control-Allow-Origin" := firstOrigin env]> headers
    else <["Access-Control-Allow-Origin" := firstOrigin env]> headers in
  let headers := <["Access-Control-Allow-Methods" := "GET, POST, OPTIONS"]> headers in
  let headers := <["Access-Control-Allow-Headers" := "Content-Type, Authorization"]> headers in
  let headers := <["Access-Control-Max-Age" := "86400"]> headers in
  let headers := <["Vary" := "Origin"]> headers in
  mkResp (resp_status r) headers (resp_body r).

(** ** The handler ([fetch], part_000 lines 99-259) *)

Definition err1 (msg : string) : JS.value :=
  JS.VObj [("error", JS.VStr msg)].

Definition err2 (msg detail : string) : JS.value :=
  JS.VObj [("error", JS.VStr msg); ("detail", JS.VStr detail)].

Definition health_body (w : World) : JS.value :=
  JS.VObj
    [ ("status", JS.VStr "ok");
      ("service", JS.VStr "CheevO! API Proxy v2");
      ("routes", route_list);
      ("features",
       JS.VArr [ JS.VStr "rate-limiting"; JS.VStr "cors-whitelist";
                 JS.VStr "response-cache"; JS.VStr "anthropic-proxy" ]);
      ("timestamp", JS.VStr (isoNow w)) ].

Definition not_found_body : JS.value :=
  JS.VObj [("error", JS.VStr "Route niet gevonden"); ("routes", route_list)].

(** [body.k] once [body] is known not to be [null]. *)
Definition prop (body : JS.value) (k : string) : JS.value :=
  default JS.VUndefined (JS.get body k).

(** [v.slice(0, n)] on an array. *)
Definition array_slice (n : nat) (v : JS.value) : JS.value :=
  match v with
  | JS.VArr items => JS.VArr (take n items)
  | _ => JS.VUndefined
  end.

Definition DEFAULT_MODEL : string := "claude-sonnet-4-5-20250929".

(** The object passed to [JSON.stringify] (lines 150-166). *)
Definition anthropic_body (w : World) (body : JS.value) : JS.value :=
  let maxTokens :=
    JS.Math_min (toNumber w) (JS.or_else (prop body "max_tokens") (JS.num 2048))
      (JS.num 4096) in
  JS.VObj
    [ ("model", JS.or_else (prop body "model") (JS.VStr DEFAULT_MODEL));
      ("max_tokens", JS.VNum maxTokens);
      ("temperature",
       JS.VNum (JS.Math_min (toNumber w)
                  (JS.or_else (prop body "temperature") (JS.dec 7 10)) (JS.num 1)));
      ("system", JS.or_else (prop body "system") (JS.VStr ""));
      ("messages", array_slice 10 (prop body "messages")) ].

Definition anthropic_request (w : World) (env : Env) (body : JS.value)
  : UpstreamRequest :=
  mkRq "https://api.anthropic.com/v1/messages" "POST"
    [ ("Content-Type", "application/json");
      ("x-api-key", default "" (ANTHROPIC_API_KEY env));
      ("anthropic-version", "2023-06-01") ]
    (Some (anthropic_body w body)).

(** The message of the [TypeError] that reading [null.messages] throws. *)
Definition null_read_message : string :=
  "Cannot read properties of null (reading 'messages')".

(** The [try] block of the Anthropic route (lines 139-181): the answer
    before CORS decoration and the effects, in order. *)
Definition anthropic_try (w : World) (env : Env) (request : Request)
  : Response * list Effect :=
  let caught msg := Response_json (err2 "Anthropic proxy mislukt" msg) 502 in
  match json request with
  | inl msg => (caught msg, [EParseBody])
  | inr body =>
      match JS.get body "messages" with
      | None => (caught null_read_message, [EParseBody])
      | Some messages =>
          if negb (JS.truthy messages) || negb (JS.isArray messages)
          then (Response_json (err1 "Ongeldig request: messages array vereist") 400,
                [EParseBody])
          else
            let rq := anthropic_request w env body in
            match upstream w rq with
            | inl msg => (caught msg, [EParseBody; EUpstream rq])
            | inr u =>
                match new_Response w (BText (up_text u)) (up_status u)
                        {[ "Content-Type" := "application/json" ]} with
                | inl msg => (caught msg, [EParseBody; EUpstream rq])
                | inr r => (r, [EParseBody; EUpstream rq])
                end
            end
      end
  end.

(** Lines 197-204: the URL the matched route is called at. *)
Definition targetUrl_of (prefix : string) (route : Route) (env : Env)
    (request : Request) : string :=
  let remainingPath := JS.slice (String.length prefix) (pathname request) in
  let targetUrl := target route +:+ remainingPath +:+ search request in
  match addKey route with
  | Some f => f targetUrl env
  | None => targetUrl
  end.

(** Lines 222-229. *)
Definition requestHeaders_of (route : Route) (env : Env) : list (string * string) :=
  [ ("Accept", "application/json");
    ("User-Agent", "CheevO-Decision-Intelligence/2.0") ]
  ++ match addHeaders route with
     | Some f => f env
     | None => []
     end.

(** Lines 231-234: the one outbound call of a generic route. *)
Definition generic_request (prefix : string) (route : Route) (env : Env)
    (request : Request) : UpstreamRequest :=
  mkRq (targetUrl_of prefix route env request) (method request)
    (requestHeaders_of route env) None.

(** [method === 'GET' && apiResponse.ok && CACHEABLE_PREFIXES.some(...)]
    (line 240). *)
Definition store_it (request : Request) (u : UpstreamResponse) : bool :=
  String.eqb (method request) "GET" && ok u && cacheable (pathname request).

(** The answer of line 244 to an upstream response, when the constructor
    builds it. *)
Definition miss_response (w : World) (u : UpstreamResponse) : string + Response :=
  new_Response w (BText (up_text u)) (up_status u)
    (<["X-Cache" := "MISS"]>
       {[ "Content-Type" := JS.str_or (up_contentType u) "application/json" ]}).

(** Lines 221-257: the [try] block around the outbound call, entered with
    the cache as the look-up left it and the effects so far.  The cache is
    written (line 241) before the answer is constructed (line 244); when
    the constructor throws, the [catch] answers 502. *)
Definition proxy_upstream (w : World) (request : Request) (rq : UpstreamRequest)
    (cache : gmap string CacheEntry) (before : list Effect)
  : Response * gmap string CacheEntry * list Effect :=
  match upstream w rq with
  | inl msg =>
      (Response_json (err2 "API request mislukt" msg) 502, cache,
       before ++ [EUpstream rq])
  | inr u =>
      let contentType := JS.str_or (up_contentType u) "application/json" in
      let cacheKey := pathname request +:+ search request in
      (match miss_response w u with
       | inl msg => Response_json (err2 "API request mislukt" msg) 502
       | inr r => r
       end,
       if store_it request u
       then setCache (now_sweep w) (now_put w) cacheKey (up_text u)
              (up_status u) contentType cache
       else cache,
       before ++ [EUpstream rq]
         ++ (if store_it request u then [ECachePut cacheKey] else []))
  end.

(** The answer served from a cache entry (lines 211-217), when the
    constructor builds it. *)
Definition hit_response (w : World) (cached : CacheEntry) : string + Response :=
  new_Response w (BText (body cached)) (status cached)
    (<["X-Cache" := "HIT"]>
       {[ "Content-Type" :=
            JS.str_or (Some (contentType cached)) "application/json" ]}).

(** Lines 183-257: the generic routes, once the limiter has admitted the
    request and it is neither the health check nor the Anthropic route.
    The answer is [None] when the handler throws: the construction of the
    cached answer (line 211) is outside any [try]. *)
Definition generic_route (w : World) (env : Env) (request : Request)
    (cache : gmap string CacheEntry)
  : option Response * gmap string CacheEntry * list Effect :=
  match matchRoute (pathname request) with
  | None => (Some (Response_json not_found_body 404), cache, [])
  | Some (prefix, route) =>
      let rq := generic_request prefix route env request in
      let cacheKey := pathname request +:+ search request in
      if String.eqb (method request) "GET" && cacheable (pathname request)
      then
        match getCached (now_get w) cacheKey cache with
        | (cache', Some cached) =>
            (match hit_response w cached with
             | inl _ => None
             | inr r => Some r
             end, cache', [ECacheGet cacheKey])
        | (cache', None) =>
            let '(r, c, eff) := proxy_upstream w request rq cache' [ECacheGet cacheKey] in
            (Some r, c, eff)
        end
      else
        let '(r, c, eff) := proxy_upstream w request rq cache [] in
        (Some r, c, eff)
  end.

Definition fetch (w : World) (env : Env) (request : Request) (st : Store)
  : Outcome :=
  let origin := JS.str_or (hdr_Origin request) "" in
  if String.eqb (method request) "OPTIONS"
  then mkOut (Some (corsResponse env origin (mkResp 204 ∅ BNull))) st []
  else
    let clientIP := JS.str_or (hdr_CF_Connecting_IP request) "unknown" in
    let '(limits, admitted) := checkRateLimit (now_limit w) clientIP (rateLimitMap st) in
    let st := mkStore limits (responseCache st) in
    if negb admitted
    then
      mkOut (Some (corsResponse env origin
               (Response_json
                  (err1 "Rate limit overschreden. Probeer het over een minuut opnieuw.")
                  429)))
            st [ELimit clientIP]
    else if String.eqb (pathname request) "/" || String.eqb (pathname request) "/health"
    then mkOut (Some (corsResponse env origin (Response_json (health_body w) 200)))
               st [ELimit clientIP]
    else if String.eqb (pathname request) "/api/anthropic"
            && String.eqb (method request) "POST"
    then
      if negb (JS.present (ANTHROPIC_API_KEY env))
      then
        mkOut (Some (corsResponse env origin
                 (Response_json
                    (err1 "Anthropic API key niet geconfigureerd op server") 503)))
              st [ELimit clientIP]
      else
        let '(r, eff) := anthropic_try w env request in
        mkOut (Some (corsResponse env origin r)) st (ELimit clientIP :: eff)
    else
      let '(r, cache, eff) := generic_route w env request (responseCache st) in
      mkOut (corsResponse env origin <$> r) (mkStore limits cache)
            (ELimit clientIP :: eff).

(** ** Runs of the limiter *)

(** A sequence of calls [(ip, now)] in the order the instance serves them,
    from table [m]: the verdict of each call. *)
Fixpoint serve (calls : list (string * Z)) (m : gmap string RateLimitEntry)
  : list (string * bool) :=
  match calls with
  | [] => []
  | (ip, now) :: rest =>
      let '(m', v) := checkRateLimit now ip m in
      (ip, v) :: serve rest m'
  end.

(** The verdicts one client received, in order. *)
Definition verdicts (ip : string) (results : list (string * bool)) : list bool :=
  (filter (fun r : string * bool => r.1 = ip) results).*2.

(** How many of the calls are this client's. *)
Definition calls_of (ip : string) (calls : list (string * Z)) : nat :=
  length (filter (fun c : string * Z => c.1 = ip) calls).

(** The verdict the [k]-th call of a window gets, counting from 1. *)
Definition nth_verdict (k : nat) : bool :=
  bool_decide (Z.of_nat k <= RATE_LIMIT_MAX).

(** ** Names for the stages of a run *)

(** [request.headers.get('Origin') || ''] and
    [request.headers.get('CF-Connecting-IP') || 'unknown']. *)
Definition origin_of (request : Request) : string :=
  JS.str_or (hdr_Origin request) "".

Definition clientIP_of (request : Request) : string :=
  JS.str_or (hdr_CF_Connecting_IP request) "unknown".

(** The limiter's verdict on this request, and the store it leaves. *)
Definition admitted (w : World) (request : Request) (st : Store) : bool :=
  (checkRateLimit (now_limit w) (clientIP_of request) (rateLimitMap st)).2.

Definition limited (w : World) (request : Request) (st : Store) : Store :=
  mkStore (checkRateLimit (now_limit w) (clientIP_of request) (rateLimitMap st)).1
    (responseCache st).

(** [url.pathname + url.search]. *)
Definition cacheKey_of (request : Request) : string :=
  pathname request +:+ search request.

(** The outbound calls among the effects of a run. *)
Definition upstream_calls (effs : list Effect) : list UpstreamRequest :=
  omap (fun e => match e with EUpstream rq => Some rq | _ => None end) effs.

(** The cache writes among the effects of a run. *)
Definition cache_puts (effs : list Effect) : list string :=
  omap (fun e => match e with ECachePut k => Some k | _ => None end) effs.

(** [headers.get('X-Cache')] of an answer. *)
Definition xcache (r : Response) : option string := resp_headers r !! "X-Cache".

(** The test of line 208, the cache as the look-up of line 209 leaves it,
    and the effect the look-up records. *)
Definition looks_up (request : Request) : bool :=
  String.eqb (method request) "GET" && cacheable (pathname request).

Definition cache_after_get (w : World) (request : Request)
    (cache : gmap string CacheEntry) : gmap string CacheEntry :=
  if looks_up request
  then (getCached (now_get w) (cacheKey_of request) cache).1
  else cache.

Definition effects_before (request : Request) : list Effect :=
  if looks_up request then [ECacheGet (cacheKey_of request)] else [].

(** What the client gets from a run, when the handler answers: status,
    body, a header, the [X-Cache] marker. *)
Definition status_of (out : Outcome) : option Z := resp_status <$> response out.

Definition body_of (out : Outcome) : option Body := resp_body <$> response out.

Definition header_of (k : string) (out : Outcome) : option string :=
  response out ≫= fun r => resp_headers r !! k.

Definition xcache_of (out : Outcome) : option string := response out ≫= xcache.

(** The ways a run through the generic routes ends: no route; an answer
    from the cache, or the handler throwing while it constructs that
    answer; a failed outbound call; an upstream answer passed on, or
    refused by the constructor and turned into a 502. *)
Inductive GenericRun (w : World) (env : Env) (request : Request) (st : Store)
  : Outcome -> Prop :=
| RunNotFound :
    matchRoute (pathname request) = None ->
    GenericRun w env request st
      (mkOut (Some (corsResponse env (origin_of request)
                      (Response_json not_found_body 404)))
             (limited w request st) [ELimit (clientIP_of request)])
| RunHit prefix route e r :
    matchRoute (pathname request) = Some (prefix, route) ->
    looks_up request = true ->
    responseCache st !! cacheKey_of request = Some e ->
    now_get w < expiresAt e ->
    hit_response w e = inr r ->
    GenericRun w env request st
      (mkOut (Some (corsResponse env (origin_of request) r))
             (limited w request st)
             [ELimit (clientIP_of request); ECacheGet (cacheKey_of request)])
| RunHitThrows prefix route e msg :
    matchRoute (pathname request) = Some (prefix, route) ->
    looks_up request = true ->
    responseCache st !! cacheKey_of request = Some e ->
    now_get w < expiresAt e ->
    hit_response w e = inl msg ->
    GenericRun w env request st
      (mkOut None (limited w request st)
             [ELimit (clientIP_of request); ECacheGet (cacheKey_of request)])
| RunFailed prefix route msg :
    matchRoute (pathname request) = Some (prefix, route) ->
    (looks_up request = true ->
     (getCached (now_get w) (cacheKey_of request) (responseCache st)).2 = None) ->
    upstream w (generic_request prefix route env request) = inl msg ->
    GenericRun w env request st
      (mkOut (Some (corsResponse env (origin_of request)
                      (Response_json (err2 "API request mislukt" msg) 502)))
             (mkStore (rateLimitMap (limited w request st))
                (cache_after_get w request (responseCache st)))
             (ELimit (clientIP_of request)
                :: effects_before request
                ++ [EUpstream (generic_request prefix route env request)]))
| RunMiss prefix route u (a : string + Response) :
    matchRoute (pathname request) = Some (prefix, route) ->
    (looks_up request = true ->
     (getCached (now_get w) (cacheKey_of request) (responseCache st)).2 = None) ->
    upstream w (generic_request prefix route env request) = inr u ->
    miss_response w u = a ->
    GenericRun w env request st
      (mkOut (Some (corsResponse env (origin_of request)
                      match a with
                      | inl msg => Response_json (err2 "API request mislukt" msg) 502
                      | inr r => r
                      end))
             (mkStore (rateLimitMap (limited w request st))
                (if store_it request u
                 then setCache (now_sweep w) (now_put w) (cacheKey_of request)
                        (up_text u) (up_status u)
                        (JS.str_or (up_contentType u) "application/json")
                        (cache_after_get w request (responseCache st))
                 else cache_after_get w request (responseCache st)))
             (ELimit (clientIP_of request)
                :: effects_before request
                ++ [EUpstream (generic_request prefix route env request)]
                ++ (if store_it request u
                    then [ECachePut (cacheKey_of request)] else []))).

(** ** The older worker ([src/worker.js])

    The first version of the proxy has no limiter, no cache, no Anthropic
    route and no allowlist.  Its [corsResponse] (lines 140-152) does not
    look at the request at all. *)
Module Legacy.

Definition corsResponse (env : Env) (r : Response) : Response :=
  let origin := JS.str_or (ALLOWED_ORIGIN env) "*" in
  let headers := resp_headers r in
  let headers := <["Access-Control-Allow-Origin" := origin]> headers in
  let headers := <["Access-Control-Allow-Methods" := "GET, POST, OPTIONS"]> headers in
  let headers := <["Access-Control-Allow-Headers" := "Content-Type"]> headers in
  let headers := <["Access-Control-Max-Age" := "86400"]> headers in
  mkResp (resp_status r) headers (resp_body r).

End Legacy.

(** ** The target URL in the spec's words

    Spec 4.3: the upstream target is the route's base, then the request
    path with the prefix stripped, then the original query string; on the
    two query-credentialed routes the configured API key is appended as a
    query parameter, after [?] or [&].  [injected_key] says which parameter
    and key a prefix gets; [spec_target] is the URL. *)
Definition injected_key (prefix : string) (env : Env) : option (string * string) :=
  if String.eqb prefix "/api/gnews"
  then (if JS.present (GNEWS_API_KEY env)
        then Some ("apikey=", default "" (GNEWS_API_KEY env)) else None)
  else if String.eqb prefix "/api/finnhub"
  then (if JS.present (FINNHUB_KEY env)
        then Some ("token=", default "" (FINNHUB_KEY env)) else None)
  else None.

Definition spec_target (prefix : string) (route : Route) (env : Env)
    (request : Request) : string :=
  let base :=
    target route +:+ JS.slice (String.length prefix) (pathname request)
      +:+ search request in
  match injected_key prefix env with
  | Some (param, k) =>
      base +:+ (if JS.includes base "?"%char then "&" else "?") +:+ param +:+ k
  | None => base
  end.

(** ** Concrete runs *)

Module Sample.

(** A runtime in which every clock reading is 1000, numbers never come out
    of strings, and every upstream answers 200 with an empty JSON object. *)
Definition quiet : World :=
  mkWorld 1000 1000 1000 1000 "2025-01-01T00:00:00.000Z"
    (fun _ => JS.NaN)
    (fun _ => inr (mkUp 200 (Some "application/json") "{}"))
    (fun _ => "Invalid response status code").

Definition no_keys : Env := mkEnv None None None None None.

Definition all_keys : Env :=
  mkEnv None (Some "tok") (Some "k") (Some "f") (Some "sk").

Definition fresh : Store := mkStore ∅ ∅.

(** The client 203.0.113.7 has used its 20 calls of the window that ends
    at 61000. *)
Definition exhausted : Store :=
  mkStore {[ "203.0.113.7" := mkRL 20 61000 ]} ∅.

Definition from_client (m path query : string) (j : string + JS.value) : Request :=
  mkReq m path query None (Some "203.0.113.7") j.

Definition no_body : string + JS.value := inl "Unexpected end of JSON input".

(** A cache that holds a live answer for one company. *)
Definition cached : Store :=
  mkStore ∅
    {[ "/api/kbo/company/0123456789" :=
         mkCE "{}" 200 "application/json" 5000 ]}.

Definition hello : JS.value :=
  JS.VObj [("role", JS.VStr "user"); ("content", JS.VStr "hi")].

End Sample.

(** A field of the JSON body an outbound call carries. *)
Definition forwarded (k : string) (rq : UpstreamRequest) : option JS.value :=
  match rq_body rq with
  | Some b => JS.get b k
  | None => None
  end.

(** ** The older worker's handler ([src/worker.js], lines 62-138)

    Its route table is the one of the newer worker, entry for entry, so
    [API_ROUTES], [matchRoute] and [targetUrl_of] serve both.  It keeps no
    state; a run yields the answer and the outbound calls it made. *)
Module LegacyWorker.

Definition health_body (w : World) : JS.value :=
  JS.VObj
    [ ("status", JS.VStr "ok");
      ("service", JS.VStr "CheevO! API Proxy");
      ("routes", JS.VArr (map (fun pr => JS.VStr pr.1) API_ROUTES));
      ("timestamp", JS.VStr (isoNow w)) ].

Definition not_found_body : JS.value :=
  JS.VObj [ ("error", JS.VStr "Route niet gevonden");
            ("routes", JS.VArr (map (fun pr => JS.VStr pr.1) API_ROUTES)) ].

Definition requestHeaders_of (route : Route) (env : Env) : list (string * string) :=
  [ ("Accept", "application/json");
    ("User-Agent", "CheevO-Decision-Intelligence/1.0") ]
  ++ match addHeaders route with
     | Some f => f env
     | None => []
     end.

Definition fetch (w : World) (env : Env) (request : Request)
  : Response * list UpstreamRequest :=
  if String.eqb (method request) "OPTIONS"
  then (Legacy.corsResponse env (mkResp 204 ∅ BNull), [])
  else if String.eqb (pathname request) "/" || String.eqb (pathname request) "/health"
  then (Legacy.corsResponse env (Response_json (health_body w) 200), [])
  else
    match matchRoute (pathname request) with
    | None => (Legacy.corsResponse env (Response_json not_found_body 404), [])
    | Some (prefix, route) =>
        let rq :=
          mkRq (targetUrl_of prefix route env request) (method request)
            (requestHeaders_of route env) None in
        match upstream w rq with
        | inl msg =>
            (Legacy.corsResponse env
               (Response_json (err2 "API request mislukt" msg) 502), [rq])
        | inr u =>
            match new_Response w (BText (up_text u)) (up_status u)
                    {[ "Content-Type" :=
                         JS.str_or (up_contentType u) "application/json" ]} with
            | inl msg =>
                (Legacy.corsResponse env
                   (Response_json (err2 "API request mislukt" msg) 502), [rq])
            | inr r => (Legacy.corsResponse env r, [rq])
            end
        end
    end.

End LegacyWorker.

(** ** More concrete runs *)

Module Sample2.

(** A runtime whose upstreams are all down. *)
Definition down : World :=
  mkWorld 1000 1000 1000 1000 "2025-01-01T00:00:00.000Z"
    (fun _ => JS.NaN) (fun _ => inl "connection refused")
    (fun _ => "Invalid response status code").

(** The quiet runtime five seconds, and ten minutes, later. *)
Definition later : World :=
  mkWorld 6000 6000 6000 6000 "2025-01-01T00:00:05.000Z"
    (fun _ => JS.NaN)
    (fun _ => inr (mkUp 200 (Some "application/json") "{}"))
    (fun _ => "Invalid response status code").

Definition much_later : World :=
  mkWorld 601000 601000 601000 601000 "2025-01-01T00:10:00.000Z"
    (fun _ => JS.NaN) (fun _ => inl "connection refused")
    (fun _ => "Invalid response status code").

Definition company : Request :=
  Sample.from_client "GET" "/api/kbo/company/0123456789" "" Sample.no_body.

Definition chat : Request :=
  Sample.from_client "POST" "/api/anthropic" ""
    (inr (JS.VObj [("messages", JS.VArr [Sample.hello])])).

Definition kbo : Route :=
  mkRoute "https://cbeapi.be/api" "KBO/CBE - Belgische bedrijfsdata"
    (Some kbo_addHeaders) None.

(** A runtime whose upstreams answer 204 with no content. *)
Definition no_content : World :=
  mkWorld 1000 1000 1000 1000 "2025-01-01T00:00:00.000Z"
    (fun _ => JS.NaN) (fun _ => inr (mkUp 204 None ""))
    (fun _ => "Invalid response status code").


(** Tables large enough to be swept: 501 cache entries, entry [n] under
    the key [/api/kbo/n] and expiring at [n]; 10000 clients, client [n]
    with one call counted and a window ending at [n]. *)
Definition decimal (n : nat) : string :=
  NilEmpty.string_of_uint (Nat.to_uint n).

Definition numbered (n : nat) : string := "/api/kbo/" +:+ decimal n.

Definition crowded : gmap string CacheEntry :=
  list_to_map
    ((fun n => (numbered n, mkCE "{}" 200 "application/json" (Z.of_nat n)))
       <$> seq 0 501).

Definition client (n : nat) : string := "c" +:+ decimal n.

Definition busy : gmap string RateLimitEntry :=
  list_to_map ((fun n => (client n, mkRL 1 (Z.of_nat n))) <$> seq 0 (Z.to_nat 10000)).

End Sample2.

(** ** Proof steps *)

(** Closes the description of an answer that is a literal [mkOut]: every
    component is read off by computation. *)
Ltac plain_answer :=
  eexists _, _, _;
  split_and!; [reflexivity | reflexivity | reflexivity | reflexivity | left; reflexivity].

(** * Theorems *)

(** ** Rate limiter *)

Section RateLimiter.

Implicit Types (m : gmap string RateLimitEntry) (e : RateLimitEntry).

(** The entry the call leaves for its own client is never swept by the
    clean-up loop of the same call. *)
Lemma checkRateLimit_own now ip m :
  (checkRateLimit now ip m).1 !! ip =
    Some (match m !! ip with
          | Some e =>
              if decide (now > resetAt e)
              then mkRL 1 (now + RATE_LIMIT_WINDOW)
              else mkRL (count e + 1) (resetAt e)
          | None => mkRL 1 (now + RATE_LIMIT_WINDOW)
          end).
Proof.
  unfold checkRateLimit, RATE_LIMIT_WINDOW. cbn [fst].
  set (e0 := match m !! ip with Some e => e | None => _ end).
  set (e1 := if decide (now > resetAt e0) then _ else e0).
  assert (Hkeep : ¬ now > resetAt e1).
  { subst e1. destruct (decide (now > resetAt e0)); cbn; lia. }
  assert (He1 : mkRL (count e1 + 1) (resetAt e1) =
                match m !! ip with
                | Some e => if decide (now > resetAt e) then mkRL 1 (now + 60000)
                            else mkRL (count e + 1) (resetAt e)
                | None => mkRL 1 (now + 60000)
                end).
  { subst e1 e0. destruct (m !! ip) as [e|]; cbn.
    - destruct (decide (now > resetAt e)); reflexivity.
    - destruct (decide (now > now + 60000)); [lia | reflexivity]. }
  rewrite <- He1.
  destruct (decide (Z.of_nat (size _) > 10000)).
  - apply map_lookup_filter_Some. split; [apply lookup_insert_eq | exact Hkeep].
  - apply lookup_insert_eq.
Qed.

Lemma checkRateLimit_verdict now ip m e' :
  (checkRateLimit now ip m).1 !! ip = Some e' →
  (checkRateLimit now ip m).2 = bool_decide (count e' <= RATE_LIMIT_MAX).
Proof.
  rewrite checkRateLimit_own. intros [= <-].
  unfold checkRateLimit. cbn [snd].
  destruct (m !! ip) as [e|]; cbn.
  - destruct (decide (now > resetAt e)); reflexivity.
  - destruct (decide (now > now + RATE_LIMIT_WINDOW)); reflexivity.
Qed.

(** Another client's live entry survives the call untouched. *)
Lemma checkRateLimit_other now ip ip' m e :
  ip' ≠ ip → m !! ip' = Some e → now <= resetAt e →
  (checkRateLimit now ip m).1 !! ip' = Some e.
Proof.
  intros Hne Hm Hlive. unfold checkRateLimit. cbn [fst].
  destruct (decide (Z.of_nat (size _) > 10000)).
  - apply map_lookup_filter_Some. split.
    + rewrite lookup_insert_ne by congruence. exact Hm.
    + cbn. lia.
  - rewrite lookup_insert_ne by congruence. exact Hm.
Qed.

Lemma nth_verdict_shift c n :
  map (fun j => bool_decide (c + 1 + Z.of_nat j <= RATE_LIMIT_MAX)) (seq 1 n) =
  map (fun j => bool_decide (c + Z.of_nat j <= RATE_LIMIT_MAX)) (seq 2 n).
Proof.
  rewrite <- (fmap_S_seq 1 n), <- list_fmap_compose.
  apply list_fmap_ext. intros _ j _. cbn.
  apply bool_decide_ext. lia.
Qed.

(** Inside a window the table counts the client's calls, whatever the other
    clients do meanwhile. *)
Lemma serve_in_window calls : ∀ ip m e,
  m !! ip = Some e →
  Forall (fun c : string * Z => c.2 <= resetAt e) calls →
  verdicts ip (serve calls m) =
    map (fun j => bool_decide (count e + Z.of_nat j <= RATE_LIMIT_MAX))
        (seq 1 (calls_of ip calls)).
Proof.
  induction calls as [|[ip' now] calls IH]; intros ip m e Hm Hin.
  - reflexivity.
  - apply Forall_cons in Hin as [Hnow Hin]. cbn in Hnow.
    cbn [serve]. destruct (checkRateLimit now ip' m) as [m' v] eqn:Hc.
    unfold verdicts, calls_of in *.
    destruct (decide (ip' = ip)) as [->|Hne].
    + rewrite !filter_cons_True by reflexivity. cbn [fmap list_fmap snd length seq map].
      pose proof (checkRateLimit_own now ip m) as Hown.
      rewrite Hm in Hown. rewrite decide_False in Hown by lia.
      pose proof (checkRateLimit_verdict now ip m _ Hown) as Hv.
      rewrite Hc in Hown, Hv. cbn [fst snd] in Hown, Hv.
      rewrite (IH ip m' _ Hown) by exact Hin. cbn [count resetAt] in *.
      rewrite Hv. f_equal. apply nth_verdict_shift.
    + rewrite !filter_cons_False by (cbn; congruence).
      apply (IH ip m' e); [|exact Hin].
      pose proof (checkRateLimit_other now ip' ip m e) as Ho.
      rewrite Hc in Ho. apply Ho; auto.
Qed.

End RateLimiter.

(** C2. With a window of 60 s and a quota of 20: when a call at [t0] opens a
    window for a client (the client has no entry, or [t0] is strictly after
    its entry's [resetAt]), that call is admitted whatever the old count
    was and leaves the entry at count 1 with [resetAt = t0 + 60000]; and of
    the client's calls up to that [resetAt], interleaved with any other
    clients' calls, the first 20 (the opening one included) are admitted
    and the 21st and all later ones are denied. *)
Theorem checkRateLimit_window (ip : string) (t0 : Z) (calls : list (string * Z))
    (m : gmap string RateLimitEntry) :
  (∀ e, m !! ip = Some e → t0 > resetAt e) →
  Forall (fun c : string * Z => c.2 <= t0 + 60000) calls →
  (checkRateLimit t0 ip m).2 = true
  ∧ (checkRateLimit t0 ip m).1 !! ip = Some (mkRL 1 (t0 + 60000))
  ∧ verdicts ip (serve ((ip, t0) :: calls) m) =
      map (fun k : nat => bool_decide (k <= 20)%nat) (seq 1 (S (calls_of ip calls))).
Proof.
  intros Hopen Hin.
  assert (Hown : (checkRateLimit t0 ip m).1 !! ip = Some (mkRL 1 (t0 + 60000))).
  { rewrite checkRateLimit_own. destruct (m !! ip) as [e|] eqn:Hm; [|reflexivity].
    specialize (Hopen e eq_refl). rewrite decide_True by exact Hopen. reflexivity. }
  pose proof (checkRateLimit_verdict _ _ _ _ Hown) as Hv.
  split_and!; [exact Hv | exact Hown |].
  cbn [serve]. destruct (checkRateLimit t0 ip m) as [m' v]. cbn [fst snd] in *.
  unfold verdicts. rewrite filter_cons_True by reflexivity.
  cbn [fmap list_fmap snd seq map]. fold (verdicts ip (serve calls m')).
  rewrite (serve_in_window calls ip m' _ Hown) by exact Hin.
  rewrite Hv. f_equal.
  rewrite <- (fmap_S_seq 1), <- list_fmap_compose.
  apply list_fmap_ext. intros _ k _. cbn. apply bool_decide_ext.
  unfold RATE_LIMIT_MAX. lia.
Qed.

(** A client whose previous window ended at 100 with count 57 calls 22 times
    from 200 on, another client in between. *)
Lemma checkRateLimit_window_witness :
  verdicts "a"
    (serve (("a", 200) :: ("b", 250) :: replicate 21 ("a", 300))
       {[ "a" := mkRL 57 100 ]})
  = replicate 20 true ++ [false; false].
Proof.
  refine (proj2 (proj2 (checkRateLimit_window "a" 200
            (("b", 250) :: replicate 21 ("a", 300)) {[ "a" := mkRL 57 100 ]} _ _))).
  - intros e He. vm_compute in He. injection He as <-. vm_compute. reflexivity.
  - repeat (constructor; [vm_compute; discriminate|]). constructor.
Defined.

(** ** The stages of [fetch] *)

Section Stages.

Context (w : World) (env : Env) (request : Request) (st : Store).

Lemma fetch_options :
  method request = "OPTIONS" →
  fetch w env request st =
    mkOut (Some (corsResponse env (origin_of request) (mkResp 204 ∅ BNull))) st [].
Proof.
  intros Hm. unfold fetch. rewrite Hm. reflexivity.
Qed.

Lemma fetch_denied :
  method request ≠ "OPTIONS" → admitted w request st = false →
  fetch w env request st =
    mkOut (Some (corsResponse env (origin_of request)
             (Response_json
                (err1 "Rate limit overschreden. Probeer het over een minuut opnieuw.")
                429)))
          (limited w request st) [ELimit (clientIP_of request)].
Proof.
  intros Hm Ha. unfold fetch, admitted, limited, clientIP_of, origin_of in *.
  apply String.eqb_neq in Hm. rewrite Hm.
  destruct (checkRateLimit _ _ _) as [limits v]. cbn [fst snd] in *. subst v.
  reflexivity.
Qed.

Lemma fetch_health :
  method request ≠ "OPTIONS" → admitted w request st = true →
  pathname request = "/" ∨ pathname request = "/health" →
  fetch w env request st =
    mkOut (Some (corsResponse env (origin_of request)
                   (Response_json (health_body w) 200)))
          (limited w request st) [ELimit (clientIP_of request)].
Proof.
  intros Hm Ha Hp. unfold fetch, admitted, limited, clientIP_of, origin_of in *.
  apply String.eqb_neq in Hm. rewrite Hm.
  destruct (checkRateLimit _ _ _) as [limits v]. cbn [fst snd] in *. subst v.
  cbn [negb]. destruct Hp as [-> | ->]; reflexivity.
Qed.

Lemma fetch_anthropic :
  method request = "POST" → pathname request = "/api/anthropic" →
  admitted w request st = true →
  fetch w env request st =
    if negb (JS.present (ANTHROPIC_API_KEY env))
    then mkOut (Some (corsResponse env (origin_of request)
                  (Response_json
                     (err1 "Anthropic API key niet geconfigureerd op server") 503)))
               (limited w request st) [ELimit (clientIP_of request)]
    else mkOut (Some (corsResponse env (origin_of request)
                        (anthropic_try w env request).1))
               (limited w request st)
               (ELimit (clientIP_of request) :: (anthropic_try w env request).2).
Proof.
  intros Hm Hp Ha. unfold fetch, admitted, limited, clientIP_of, origin_of in *.
  rewrite Hm, Hp.
  destruct (checkRateLimit _ _ _) as [limits v]. cbn [fst snd] in *. subst v.
  change ("POST" =? "OPTIONS")%string with false.
  change ("/api/anthropic" =? "/")%string with false.
  change ("/api/anthropic" =? "/health")%string with false.
  change ("/api/anthropic" =? "/api/anthropic")%string with true.
  change ("POST" =? "POST")%string with true.
  cbn [negb orb andb].
  destruct (negb (JS.present (ANTHROPIC_API_KEY env))); [reflexivity|].
  destruct (anthropic_try w env request). reflexivity.
Qed.

Lemma fetch_generic :
  method request ≠ "OPTIONS" → admitted w request st = true →
  pathname request ≠ "/" → pathname request ≠ "/health" →
  ¬ (pathname request = "/api/anthropic" ∧ method request = "POST") →
  fetch w env request st =
    let g := generic_route w env request (responseCache st) in
    mkOut (corsResponse env (origin_of request) <$> g.1.1)
          (mkStore (rateLimitMap (limited w request st)) g.1.2)
          (ELimit (clientIP_of request) :: g.2).
Proof.
  intros Hm Ha Hp1 Hp2 Hp3.
  unfold fetch, admitted, limited, clientIP_of, origin_of in *.
  apply String.eqb_neq in Hm, Hp1, Hp2. rewrite Hm, Hp1, Hp2.
  destruct (checkRateLimit _ _ _) as [limits v]. cbn [fst snd] in *. subst v.
  cbn [negb orb rateLimitMap responseCache].
  assert (Hno : (pathname request =? "/api/anthropic")%string
                && (method request =? "POST")%string = false).
  { apply andb_false_iff.
    destruct (String.eqb_spec (pathname request) "/api/anthropic");
      destruct (String.eqb_spec (method request) "POST"); tauto. }
  rewrite Hno.
  destruct (generic_route w env request (responseCache st)) as [[r c] eff].
  reflexivity.
Qed.

(** Every answer leaves through [corsResponse]. *)
Lemma fetch_decorated :
  ∃ o, response (fetch w env request st) = corsResponse env (origin_of request) <$> o.
Proof.
  destruct (String.eqb_spec (method request) "OPTIONS") as [Hm|Hm].
  { rewrite fetch_options by exact Hm. by eexists (Some _). }
  destruct (admitted w request st) eqn:Ha.
  2: { rewrite fetch_denied by assumption. by eexists (Some _). }
  destruct (String.eqb_spec (pathname request) "/") as [Hp1|Hp1].
  { rewrite fetch_health by auto. by eexists (Some _). }
  destruct (String.eqb_spec (pathname request) "/health") as [Hp2|Hp2].
  { rewrite fetch_health by auto. by eexists (Some _). }
  destruct (String.eqb_spec (pathname request) "/api/anthropic") as [Hp3|Hp3].
  - destruct (String.eqb_spec (method request) "POST") as [Hm'|Hm'].
    + rewrite fetch_anthropic by assumption.
      destruct (negb _); by eexists (Some _).
    + rewrite fetch_generic by tauto. cbn. eauto.
  - rewrite fetch_generic by tauto. cbn. eauto.
Qed.

End Stages.

(** ** CORS *)

Lemma firstOrigin_fixed env : firstOrigin env = "https://meyermansheidi.github.io".
Proof.
  unfold firstOrigin, allowedOrigins.
  destruct (ALLOWED_ORIGIN env) as [o|]; [|reflexivity].
  destruct (_ && _); reflexivity.
Qed.

Lemma allowedOrigins_spec env o :
  o ∈ allowedOrigins env ↔
  o ∈ fixedOrigins ∨ (ALLOWED_ORIGIN env = Some o ∧ o ≠ "").
Proof.
  unfold allowedOrigins, JS.present.
  destruct (ALLOWED_ORIGIN env) as [a|].
  2: { split; [auto | intros [H|[H _]]; [exact H | discriminate H]]. }
  destruct (String.eqb_spec a "") as [->|Hne]; cbn [negb andb].
  { split; [auto | intros [H|[H1 H2]]; [exact H | congruence]]. }
  destruct (bool_decide_reflect (a ∈ fixedOrigins)) as [Hin|Hnin]; cbn [negb].
  - split; [auto | intros [H|[H1 H2]]; [exact H | congruence]].
  - rewrite elem_of_app, list_elem_of_singleton.
    split; intros [H|H].
    + left; exact H.
    + right; subst o; split; [reflexivity | exact Hne].
    + left; exact H.
    + right; destruct H as [H _]; congruence.
Qed.

Lemma corsResponse_allow_origin env origin r :
  resp_headers (corsResponse env origin r) !! "Access-Control-Allow-Origin" =
    Some (if bool_decide (origin ∈ allowedOrigins env) then origin
          else "https://meyermansheidi.github.io").
Proof.
  unfold corsResponse. cbn [resp_headers].
  rewrite !(lookup_insert_ne _ _ "Access-Control-Allow-Origin") by discriminate.
  rewrite firstOrigin_fixed.
  destruct (bool_decide (origin ∈ allowedOrigins env)).
  - apply lookup_insert_eq.
  - destruct (_ || _); apply lookup_insert_eq.
Qed.

(** C3, for the newer worker. Whatever this worker answers (the 204
    preflight, an error or a proxied answer), [Access-Control-Allow-Origin]
    is the request's [Origin] when that is on the allowlist (the four fixed
    origins, plus [env.ALLOWED_ORIGIN] when set), and the first allowlist
    entry [https://meyermansheidi.github.io] otherwise: when [Origin] is
    absent, and when it is ["null"] or any other value the list does not
    hold. *)
Theorem fetch_allow_origin (w : World) (env : Env) (request : Request) (st : Store)
    (r : Response) :
  response (fetch w env request st) = Some r →
  let allow := resp_headers r !! "Access-Control-Allow-Origin" in
  (∀ o, o ∈ allowedOrigins env ↔
        o ∈ fixedOrigins ∨ (ALLOWED_ORIGIN env = Some o ∧ o ≠ ""))
  ∧ head (allowedOrigins env) = Some "https://meyermansheidi.github.io"
  ∧ (∀ o, hdr_Origin request = Some o → o ∈ allowedOrigins env → allow = Some o)
  ∧ (hdr_Origin request = None → allow = Some "https://meyermansheidi.github.io")
  ∧ (∀ o, hdr_Origin request = Some o → o ∉ allowedOrigins env →
          allow = Some "https://meyermansheidi.github.io").
Proof.
  intros Hr allow. subst allow.
  destruct (fetch_decorated w env request st) as [a Ha].
  rewrite Ha in Hr. destruct a as [r0|]; [|discriminate Hr].
  injection Hr as <-.
  rewrite corsResponse_allow_origin.
  assert (Hempty : "" ∉ allowedOrigins env).
  { rewrite allowedOrigins_spec. unfold fixedOrigins.
    rewrite !elem_of_cons, elem_of_nil. intros [H|[_ H]]; [|congruence].
    repeat destruct H as [H|H]; try discriminate H. exact H. }
  split_and!.
  - apply allowedOrigins_spec.
  - pose proof (firstOrigin_fixed env) as Hf. unfold firstOrigin in Hf.
    destruct (head (allowedOrigins env)) as [h|] eqn:Hh; cbn in Hf; [by subst|].
    discriminate Hf.
  - intros o Ho Hin. unfold origin_of. rewrite Ho. cbn [JS.str_or].
    destruct (String.eqb_spec o "") as [->|_]; [contradiction|].
    rewrite bool_decide_eq_true_2 by exact Hin. reflexivity.
  - intros Ho. unfold origin_of. rewrite Ho. cbn [JS.str_or].
    rewrite bool_decide_eq_false_2 by exact Hempty. reflexivity.
  - intros o Ho Hnin. unfold origin_of. rewrite Ho. cbn [JS.str_or].
    destruct (String.eqb_spec o "") as [->|_].
    + rewrite bool_decide_eq_false_2 by exact Hempty. reflexivity.
    + rewrite bool_decide_eq_false_2 by exact Hnin. reflexivity.
Qed.

Lemma fetch_allow_origin_witness :
  let request :=
    mkReq "GET" "/health" "" (Some "http://localhost:3000") None Sample.no_body in
  header_of "Access-Control-Allow-Origin"
    (fetch Sample.quiet Sample.no_keys request Sample.fresh)
  = Some "http://localhost:3000".
Proof.
  assert (Hr : ∃ r, response (fetch Sample.quiet Sample.no_keys
                      (mkReq "GET" "/health" "" (Some "http://localhost:3000") None
                         Sample.no_body) Sample.fresh) = Some r)
    by (eexists; vm_compute; reflexivity).
  destruct Hr as [r Hr]. cbv zeta. unfold header_of. rewrite Hr. cbn [mbind option_bind].
  refine (proj1 (proj2 (proj2 (fetch_allow_origin Sample.quiet Sample.no_keys
            (mkReq "GET" "/health" "" (Some "http://localhost:3000") None
               Sample.no_body) Sample.fresh r Hr)))
            "http://localhost:3000" eq_refl _).
  vm_compute. apply list_elem_of_further, list_elem_of_here.
Defined.

(** C3 as stated fails on the older worker, whose [corsResponse] the claim
    also rests on: a request from [http://localhost:3000], an origin on the
    allowlist, is answered with [*], not with its origin; and with
    [env.ALLOWED_ORIGIN] set, an unrecognised origin gets that value. *)
Lemma legacy_origin_not_echoed :
  let request :=
    mkReq "GET" "/health" "" (Some "http://localhost:3000") None Sample.no_body in
  "http://localhost:3000" ∈ allowedOrigins Sample.no_keys
  ∧ resp_headers (LegacyWorker.fetch Sample.quiet Sample.no_keys request).1
      !! "Access-Control-Allow-Origin" = Some "*"
  ∧ resp_headers
      (Legacy.corsResponse Sample.no_keys (mkResp 204 ∅ BNull))
      !! "Access-Control-Allow-Origin" = Some "*".
Proof.
  cbv zeta. split_and!; [|vm_compute; reflexivity ..].
  vm_compute. apply list_elem_of_further, list_elem_of_here.
Qed.

(** C9. An OPTIONS request is answered 204 with the CORS headers and nothing
    else happens: the limiter is not called (no effect is recorded), so the
    answer is 204 even for a client whose quota is used up, and the store,
    the rate-limit table included, is the one the run started from. *)
Theorem fetch_preflight (w : World) (env : Env) (request : Request) (st : Store) :
  method request = "OPTIONS" →
  let out := fetch w env request st in
  status_of out = Some 204
  ∧ body_of out = Some BNull
  ∧ header_of "Access-Control-Allow-Origin" out =
      Some (if bool_decide (origin_of request ∈ allowedOrigins env)
            then origin_of request else "https://meyermansheidi.github.io")
  ∧ header_of "Access-Control-Allow-Methods" out = Some "GET, POST, OPTIONS"
  ∧ header_of "Access-Control-Allow-Headers" out = Some "Content-Type, Authorization"
  ∧ header_of "Access-Control-Max-Age" out = Some "86400"
  ∧ header_of "Vary" out = Some "Origin"
  ∧ effects out = []
  ∧ store out = st
  ∧ rateLimitMap (store out) = rateLimitMap st.
Proof.
  intros Hm out. subst out. rewrite fetch_options by exact Hm.
  unfold status_of, body_of, header_of.
  cbn [response effects store fmap option_fmap option_map mbind option_bind].
  rewrite corsResponse_allow_origin.
  unfold corsResponse. cbn [resp_status resp_body resp_headers].
  split_and!; try reflexivity.
  - rewrite !(lookup_insert_ne _ _ "Access-Control-Allow-Methods") by discriminate.
    apply lookup_insert_eq.
  - rewrite !(lookup_insert_ne _ _ "Access-Control-Allow-Headers") by discriminate.
    apply lookup_insert_eq.
  - rewrite !(lookup_insert_ne _ _ "Access-Control-Max-Age") by discriminate.
    apply lookup_insert_eq.
  - apply lookup_insert_eq.
Qed.

Lemma fetch_preflight_witness :
  let request := Sample.from_client "OPTIONS" "/api/kbo/company/1" "" Sample.no_body in
  admitted Sample.quiet request Sample.exhausted = false
  ∧ status_of (fetch Sample.quiet Sample.no_keys request Sample.exhausted) = Some 204
  ∧ rateLimitMap (store (fetch Sample.quiet Sample.no_keys request Sample.exhausted))
    = rateLimitMap Sample.exhausted.
Proof.
  destruct (fetch_preflight Sample.quiet Sample.no_keys
              (Sample.from_client "OPTIONS" "/api/kbo/company/1" "" Sample.no_body)
              Sample.exhausted eq_refl)
    as (Hs & _ & _ & _ & _ & _ & _ & _ & _ & Ht).
  split_and!; [vm_compute; reflexivity | exact Hs | exact Ht].
Defined.

(** The older worker answers with [env.ALLOWED_ORIGIN], or [*] when that is
    unset, whatever origin the request declares. *)
Lemma legacy_allow_origin env r :
  resp_headers (Legacy.corsResponse env r) !! "Access-Control-Allow-Origin"
  = Some (JS.str_or (ALLOWED_ORIGIN env) "*").
Proof.
  unfold Legacy.corsResponse. cbn [resp_headers].
  rewrite !(lookup_insert_ne _ _ "Access-Control-Allow-Origin") by discriminate.
  apply lookup_insert_eq.
Qed.

(** ** Response cache *)

Section Cache.

Implicit Types (cache : gmap string CacheEntry) (e : CacheEntry).

Lemma getCached_Some now key cache e :
  (getCached now key cache).2 = Some e →
  cache !! key = Some e ∧ now < expiresAt e ∧ (getCached now key cache).1 = cache.
Proof.
  unfold getCached. destruct (cache !! key) as [e'|]; [|discriminate].
  destruct (decide (now < expiresAt e')); [|discriminate].
  cbn. intros [= ->]. auto.
Qed.

Lemma getCached_fresh now key cache e :
  cache !! key = Some e → now < expiresAt e →
  getCached now key cache = (cache, Some e).
Proof.
  intros Hk Hlt. unfold getCached. rewrite Hk.
  rewrite decide_True by exact Hlt. reflexivity.
Qed.

Lemma getCached_expired now key cache e :
  cache !! key = Some e → expiresAt e <= now →
  getCached now key cache = (delete key cache, None).
Proof.
  intros Hk Hle. unfold getCached. rewrite Hk.
  rewrite decide_False by lia. reflexivity.
Qed.

Lemma getCached_missing now key cache :
  cache !! key = None → getCached now key cache = (cache, None).
Proof. intros Hk. unfold getCached. rewrite Hk. reflexivity. Qed.

(** A look-up never adds an entry. *)
Lemma getCached_shrinks now key cache k e :
  (getCached now key cache).1 !! k = Some e → cache !! k = Some e.
Proof.
  unfold getCached. destruct (cache !! key) as [e'|]; [|auto].
  destruct (decide (now < expiresAt e')); [auto|]. cbn.
  rewrite lookup_delete_Some. tauto.
Qed.

Lemma setCache_lookup t1 t2 key b s ct cache :
  setCache t1 t2 key b s ct cache !! key = Some (mkCE b s ct (t2 + 300000)).
Proof. unfold setCache. apply lookup_insert_eq. Qed.

End Cache.

(** ** The [X-Cache] marker *)

Lemma xcache_cors env origin r : xcache (corsResponse env origin r) = xcache r.
Proof.
  unfold xcache, corsResponse. cbn [resp_headers].
  rewrite !(lookup_insert_ne _ _ "X-Cache") by discriminate.
  destruct (bool_decide _); [|destruct (_ || _)];
    rewrite lookup_insert_ne by discriminate; reflexivity.
Qed.

Lemma xcache_json data st : xcache (Response_json data st) = None.
Proof. reflexivity. Qed.

(** The constructor either builds the object asked for or throws. *)
Lemma new_Response_inr w b st h r :
  new_Response w b st h = inr r → r = mkResp st h b ∧ refused st b = false.
Proof.
  unfold new_Response. destruct (refused st b); [discriminate|].
  intros [= <-]. auto.
Qed.

Lemma new_Response_inl w b st h msg :
  new_Response w b st h = inl msg → refused st b = true.
Proof. unfold new_Response. destruct (refused st b); [auto | discriminate]. Qed.

Lemma new_Response_accepted w b st h :
  refused st b = false → new_Response w b st h = inr (mkResp st h b).
Proof. unfold new_Response. intros ->. reflexivity. Qed.

(** With a text body the constructor accepts exactly the statuses 200..599
    other than 204, 205 and 304. *)
Lemma refused_text st t :
  refused st (BText t) = false ↔
  200 <= st <= 599 ∧ st ≠ 204 ∧ st ≠ 205 ∧ st ≠ 304.
Proof.
  unfold refused, null_body_status. cbn [andb].
  rewrite orb_false_iff, bool_decide_eq_false, !orb_false_iff, !Z.eqb_neq. lia.
Qed.

Lemma xcache_hit w e r :
  hit_response w e = inr r →
  xcache r = Some "HIT" ∧ resp_status r = status e ∧ resp_body r = BText (body e).
Proof.
  unfold hit_response. intros H. apply new_Response_inr in H as [-> _].
  split_and!; [apply lookup_insert_eq | reflexivity | reflexivity].
Qed.

Lemma xcache_anthropic w env request : xcache (anthropic_try w env request).1 = None.
Proof.
  unfold anthropic_try.
  destruct (json request) as [msg|b]; [reflexivity|].
  destruct (JS.get b "messages") as [msgs|]; [|reflexivity].
  destruct (_ || _); [reflexivity|].
  destruct (upstream w _) as [msg|u]; [reflexivity|].
  unfold new_Response. destruct (refused _ _); reflexivity.
Qed.

Lemma anthropic_no_put w env request : cache_puts (anthropic_try w env request).2 = [].
Proof.
  unfold anthropic_try.
  destruct (json request) as [msg|b]; [reflexivity|].
  destruct (JS.get b "messages") as [msgs|]; [|reflexivity].
  destruct (_ || _); [reflexivity|].
  destruct (upstream w _) as [msg|u]; [reflexivity|].
  destruct (new_Response _ _ _ _); reflexivity.
Qed.

(** ** The generic routes, case by case *)

Lemma cacheable_kbo path : cacheable path = JS.startsWith path "/api/kbo".
Proof. unfold cacheable, CACHEABLE_PREFIXES. cbn [existsb]. apply orb_false_r. Qed.

Lemma generic_route_cases w env request cache :
  match matchRoute (pathname request) with
  | None =>
      generic_route w env request cache =
        (Some (Response_json not_found_body 404), cache, [])
  | Some (prefix, route) =>
      (∃ e, looks_up request = true
            ∧ cache !! cacheKey_of request = Some e
            ∧ now_get w < expiresAt e
            ∧ generic_route w env request cache =
                (match hit_response w e with
                 | inl _ => None
                 | inr r => Some r
                 end, cache, [ECacheGet (cacheKey_of request)]))
      ∨ ((looks_up request = true →
          (getCached (now_get w) (cacheKey_of request) cache).2 = None)
         ∧ generic_route w env request cache =
             let p :=
               proxy_upstream w request (generic_request prefix route env request)
                 (cache_after_get w request cache) (effects_before request) in
             (Some p.1.1, p.1.2, p.2))
  end.
Proof.
  unfold generic_route, cache_after_get, effects_before, looks_up, cacheKey_of.
  destruct (matchRoute (pathname request)) as [[prefix route]|]; [|reflexivity].
  destruct (_ && _).
  2: { right. split; [discriminate|]. cbv zeta.
       destruct (proxy_upstream _ _ _ _ _) as [[r c] eff]. reflexivity. }
  destruct (getCached _ _ cache) as [cache' [e|]] eqn:Hg.
  - left. exists e.
    pose proof (getCached_Some (now_get w)
                  (pathname request +:+ search request) cache e) as H.
    rewrite Hg in H. destruct (H eq_refl) as (Hk & Hlt & Hc).
    cbn in Hc. subst cache'. auto.
  - right. split; [reflexivity|]. cbv zeta. cbn [fst].
    destruct (proxy_upstream _ _ _ _ _) as [[r c] eff]. reflexivity.
Qed.

Lemma cache_after_get_shrinks w request cache k e :
  cache_after_get w request cache !! k = Some e → cache !! k = Some e.
Proof.
  unfold cache_after_get. destruct (looks_up request); [|auto].
  apply getCached_shrinks.
Qed.

Lemma store_it_spec request u :
  store_it request u = true ↔
  method request = "GET"
  ∧ JS.startsWith (pathname request) "/api/kbo" = true
  ∧ 200 <= up_status u <= 299.
Proof.
  unfold store_it, ok. rewrite cacheable_kbo, !andb_true_iff, String.eqb_eq.
  rewrite bool_decide_eq_true. tauto.
Qed.

Lemma fetch_generic_run w env request st :
  method request ≠ "OPTIONS" → admitted w request st = true →
  pathname request ≠ "/" → pathname request ≠ "/health" →
  ¬ (pathname request = "/api/anthropic" ∧ method request = "POST") →
  GenericRun w env request st (fetch w env request st).
Proof.
  intros Hm Ha Hp1 Hp2 Hp3. rewrite fetch_generic by assumption.
  pose proof (generic_route_cases w env request (responseCache st)) as Hg.
  destruct (matchRoute (pathname request)) as [[prefix route]|] eqn:Hr.
  - destruct Hg as [(e & Hl & Hk & Hlt & ->) | (Hnone & ->)].
    + cbn [fst snd]. destruct (hit_response w e) as [msg|r] eqn:Hh;
        cbn [fmap option_fmap option_map].
      * eapply RunHitThrows; eassumption.
      * eapply RunHit; eassumption.
    + unfold proxy_upstream.
      destruct (upstream w (generic_request prefix route env request))
        as [msg|u] eqn:Hu; cbn [fst snd fmap option_fmap option_map].
      * eapply RunFailed; eassumption.
      * eapply (RunMiss _ _ _ _ prefix route u); [eassumption .. | reflexivity].
  - rewrite Hg. cbn. apply RunNotFound. exact Hr.
Qed.

(** The answers that touch neither an upstream nor the cache, the Anthropic
    route, and the generic routes. *)
Lemma fetch_cases w env request st :
  (∃ r st' effs,
      fetch w env request st =
        mkOut (Some (corsResponse env (origin_of request) r)) st' effs
      ∧ xcache r = None
      ∧ responseCache st' = responseCache st
      ∧ cache_puts effs = []
      ∧ (upstream_calls effs = []
         ∨ (method request = "POST" ∧ pathname request = "/api/anthropic")))
  ∨ (method request ≠ "OPTIONS"
     ∧ admitted w request st = true
     ∧ ¬ (pathname request = "/api/anthropic" ∧ method request = "POST")
     ∧ GenericRun w env request st (fetch w env request st)).
Proof.
  destruct (String.eqb_spec (method request) "OPTIONS") as [Hm|Hm].
  { left. rewrite fetch_options by exact Hm. plain_answer. }
  destruct (admitted w request st) eqn:Ha.
  2: { left. rewrite fetch_denied by assumption. plain_answer. }
  destruct (String.eqb_spec (pathname request) "/") as [Hp1|Hp1].
  { left. rewrite fetch_health by auto. plain_answer. }
  destruct (String.eqb_spec (pathname request) "/health") as [Hp2|Hp2].
  { left. rewrite fetch_health by auto. plain_answer. }
  destruct (String.eqb_spec (pathname request) "/api/anthropic") as [Hp3|Hp3];
    [destruct (String.eqb_spec (method request) "POST") as [Hm'|Hm']|].
  - left. rewrite fetch_anthropic by assumption.
    destruct (negb _); [plain_answer|]. eexists _, _, _.
    split_and!; [reflexivity | apply xcache_anthropic | reflexivity
                | apply anthropic_no_put | right; auto].
  - right. split_and!; [assumption | reflexivity | tauto |].
    apply fetch_generic_run; tauto.
  - right. split_and!; [assumption | reflexivity | tauto |].
    apply fetch_generic_run; tauto.
Qed.

Lemma xcache_miss w u r :
  miss_response w u = inr r →
  xcache r = Some "MISS" ∧ resp_status r = up_status u
  ∧ resp_body r = BText (up_text u)
  ∧ resp_headers r !! "Content-Type" =
      Some (JS.str_or (up_contentType u) "application/json").
Proof.
  unfold miss_response. intros H. apply new_Response_inr in H as [-> _].
  split_and!; [apply lookup_insert_eq | reflexivity | reflexivity |].
  cbn [resp_headers]. rewrite lookup_insert_ne by discriminate.
  apply lookup_singleton_eq.
Qed.

(** The answer of the [try] block of line 221 to an upstream answer is
    marked [MISS] when the constructor built it, and is unmarked when it
    is the 502 of the [catch]. *)
Lemma xcache_miss_or_502 (a : string + Response) w u :
  miss_response w u = a →
  xcache match a with
         | inl msg => Response_json (err2 "API request mislukt" msg) 502
         | inr r => r
         end ≠ Some "HIT".
Proof.
  intros H. destruct a as [msg|r]; [discriminate|].
  destruct (xcache_miss _ _ _ H) as [-> _]. discriminate.
Qed.

(** An answer marked [HIT] comes from a live entry of the cache. *)
Lemma fetch_hit_inv w env request st :
  xcache_of (fetch w env request st) = Some "HIT" →
  ∃ e r, responseCache st !! cacheKey_of request = Some e
       ∧ now_get w < expiresAt e
       ∧ hit_response w e = inr r
       ∧ response (fetch w env request st) =
           Some (corsResponse env (origin_of request) r).
Proof.
  unfold xcache_of. intros Hx.
  destruct (fetch_cases w env request st)
    as [(r & st' & effs & Hf & Hn & _) | (_ & _ & _ & Hrun)].
  - rewrite Hf in Hx. cbn [response mbind option_bind] in Hx.
    rewrite xcache_cors in Hx. congruence.
  - destruct Hrun as [Hr | prefix route e r Hr Hl Hk Hlt Hh
                     | prefix route e msg Hr Hl Hk Hlt Hh
                     | prefix route msg Hr Hn Hu
                     | prefix route u a Hr Hn Hu Ha];
      cbn [response mbind option_bind] in *; rewrite ?xcache_cors in Hx.
    + discriminate Hx.
    + eauto 10.
    + discriminate Hx.
    + discriminate Hx.
    + exfalso. exact (xcache_miss_or_502 a w u Ha Hx).
Qed.

(** C4. A cache read returns an entry only when the clock is strictly before
    its [expiresAt], and then returns the stored entry and leaves the table
    alone; a read that finds an entry with [expiresAt <= now] deletes it and
    returns nothing; a read of a missing key returns nothing.  So the
    handler serves from the cache (the answer marked [HIT]) only an entry
    that has not expired at the time of the look-up. *)
Theorem getCached_not_expired (now : Z) (key : string)
    (cache : gmap string CacheEntry)
    (w : World) (env : Env) (request : Request) (st : Store) :
  (∀ e, (getCached now key cache).2 = Some e →
        cache !! key = Some e ∧ now < expiresAt e
        ∧ (getCached now key cache).1 = cache)
  ∧ (∀ e, cache !! key = Some e → now < expiresAt e →
          getCached now key cache = (cache, Some e))
  ∧ (∀ e, cache !! key = Some e → expiresAt e <= now →
          getCached now key cache = (delete key cache, None)
          ∧ delete key cache !! key = None)
  ∧ (cache !! key = None → getCached now key cache = (cache, None))
  ∧ (xcache_of (fetch w env request st) = Some "HIT" →
     ∃ e r, responseCache st !! cacheKey_of request = Some e
          ∧ now_get w < expiresAt e
          ∧ hit_response w e = inr r
          ∧ response (fetch w env request st) =
              Some (corsResponse env (origin_of request) r)).
Proof.
  split_and!.
  - apply getCached_Some.
  - apply getCached_fresh.
  - intros e Hk Hle. split; [eapply getCached_expired; eassumption|].
    apply lookup_delete_eq.
  - apply getCached_missing.
  - apply fetch_hit_inv.
Qed.

(** ** Paths *)

Lemma startsWith_split s p :
  JS.startsWith s p = true → s = p +:+ JS.slice (String.length p) s.
Proof.
  revert s.
  induction p as [|c p IH]; intros s H; [reflexivity|].
  destruct s as [|c' s]; cbn in H; [discriminate|].
  apply andb_true_iff in H as [Hc H]. apply Ascii.eqb_eq in Hc as ->.
  cbn [String.length JS.slice].
  change (String c s = String c (p +:+ JS.slice (String.length p) s)).
  f_equal. apply IH. exact H.
Qed.

Lemma kbo_path path :
  JS.startsWith path "/api/kbo" = true →
  path ≠ "/" ∧ path ≠ "/health" ∧ path ≠ "/api/anthropic"
  ∧ matchRoute path = head API_ROUTES.
Proof.
  intros H. apply startsWith_split in H. rewrite H.
  split_and!; [cbv [String.append]; discriminate .. | reflexivity].
Qed.

(** ** What a run records *)

Lemma calls_of_run ip request rq (b : bool) k :
  upstream_calls
    (ELimit ip :: effects_before request ++ [EUpstream rq]
       ++ (if b then [ECachePut k] else [])) = [rq].
Proof. unfold effects_before. destruct (looks_up request), b; reflexivity. Qed.

Lemma puts_of_run ip request rq (b : bool) k :
  cache_puts
    (ELimit ip :: effects_before request ++ [EUpstream rq]
       ++ (if b then [ECachePut k] else [])) = if b then [k] else [].
Proof. unfold effects_before. destruct (looks_up request), b; reflexivity. Qed.

Lemma calls_of_failed ip request rq :
  upstream_calls (ELimit ip :: effects_before request ++ [EUpstream rq]) = [rq].
Proof. unfold effects_before. destruct (looks_up request); reflexivity. Qed.

Lemma puts_of_failed ip request rq :
  cache_puts (ELimit ip :: effects_before request ++ [EUpstream rq]) = [].
Proof. unfold effects_before. destruct (looks_up request); reflexivity. Qed.

(** A live entry under the request's key decides a GET on a cacheable
    path: the answer is built from it, or the handler throws. *)
Lemma fetch_hit w env request st e :
  method request = "GET" → admitted w request st = true →
  JS.startsWith (pathname request) "/api/kbo" = true →
  responseCache st !! cacheKey_of request = Some e → now_get w < expiresAt e →
  fetch w env request st =
    mkOut (match hit_response w e with
           | inl _ => None
           | inr r => Some (corsResponse env (origin_of request) r)
           end)
          (limited w request st)
          [ELimit (clientIP_of request); ECacheGet (cacheKey_of request)].
Proof.
  intros Hm Ha Hkbo Hk Hlt.
  destruct (kbo_path _ Hkbo) as (Hp1 & Hp2 & Hp3 & Hr).
  assert (Hl : looks_up request = true).
  { unfold looks_up. rewrite Hm, cacheable_kbo, Hkbo. reflexivity. }
  assert (Hrun : GenericRun w env request st (fetch w env request st)).
  { apply fetch_generic_run; try assumption; [rewrite Hm; discriminate | tauto]. }
  remember (fetch w env request st) as out eqn:Ho. clear Ho.
  pose proof (getCached_fresh (now_get w) _ _ e Hk Hlt) as Hg.
  destruct Hrun as [Hr' | prefix route e' r Hr' _ Hk' _ Hh
                   | prefix route e' msg Hr' _ Hk' _ Hh
                   | prefix route msg _ Hn _
                   | prefix route u a _ Hn _ _].
  - rewrite Hr in Hr'. discriminate Hr'.
  - rewrite Hk in Hk'. injection Hk' as <-. rewrite Hh. reflexivity.
  - rewrite Hk in Hk'. injection Hk' as <-. rewrite Hh. reflexivity.
  - specialize (Hn Hl). rewrite Hg in Hn. discriminate Hn.
  - specialize (Hn Hl). rewrite Hg in Hn. discriminate Hn.
Qed.


(** ** The Anthropic route *)

(** C6, as the code has it. A POST to [/api/anthropic] that the limiter
    admits, with [env.ANTHROPIC_API_KEY] unset or empty, is answered 503;
    the only effect of the run is the limiter's: the body is not parsed and
    nothing is sent upstream. *)
Theorem anthropic_unconfigured (w : World) (env : Env) (request : Request)
    (st : Store) :
  method request = "POST" → pathname request = "/api/anthropic" →
  JS.present (ANTHROPIC_API_KEY env) = false →
  admitted w request st = true →
  let out := fetch w env request st in
  response out =
    Some (corsResponse env (origin_of request)
            (Response_json (err1 "Anthropic API key niet geconfigureerd op server")
               503))
  ∧ status_of out = Some 503
  ∧ effects out = [ELimit (clientIP_of request)]
  ∧ upstream_calls (effects out) = []
  ∧ responseCache (store out) = responseCache st.
Proof.
  intros Hm Hp Hkey Ha out. subst out.
  rewrite fetch_anthropic by assumption. rewrite Hkey. cbn [negb].
  split_and!; reflexivity.
Qed.

Lemma anthropic_unconfigured_witness :
  status_of
    (fetch Sample.quiet Sample.no_keys
       (Sample.from_client "POST" "/api/anthropic" "" Sample.no_body)
       Sample.fresh) = Some 503.
Proof.
  refine (proj1 (proj2 (anthropic_unconfigured Sample.quiet Sample.no_keys
            (Sample.from_client "POST" "/api/anthropic" "" Sample.no_body)
            Sample.fresh _ _ _ _))); vm_compute; reflexivity.
Defined.

(** C6 as stated fails: the limiter runs first, and a client over its quota
    gets 429, not 503, although the credential is not configured. *)
Lemma anthropic_unconfigured_limited :
  let request := Sample.from_client "POST" "/api/anthropic" "" Sample.no_body in
  method request = "POST"
  ∧ pathname request = "/api/anthropic"
  ∧ JS.present (ANTHROPIC_API_KEY Sample.no_keys) = false
  ∧ status_of (fetch Sample.quiet Sample.no_keys request Sample.exhausted)
    = Some 429.
Proof. vm_compute. auto. Qed.

(** C10, as the code has it. A POST to [/api/anthropic] that the limiter
    admits, with the credential set, whose body [request.json()] rejects
    with message [msg], is answered 502 with error [Anthropic proxy mislukt]
    and [msg] as detail (not 400); nothing is sent upstream. *)
Theorem anthropic_unparseable (w : World) (env : Env) (request : Request)
    (st : Store) (msg : string) :
  method request = "POST" → pathname request = "/api/anthropic" →
  JS.present (ANTHROPIC_API_KEY env) = true →
  json request = inl msg →
  admitted w request st = true →
  let out := fetch w env request st in
  response out =
    Some (corsResponse env (origin_of request)
            (Response_json
               (JS.VObj [("error", JS.VStr "Anthropic proxy mislukt");
                         ("detail", JS.VStr msg)]) 502))
  ∧ status_of out = Some 502
  ∧ effects out = [ELimit (clientIP_of request); EParseBody]
  ∧ upstream_calls (effects out) = [].
Proof.
  intros Hm Hp Hkey Hj Ha out. subst out.
  rewrite fetch_anthropic by assumption. rewrite Hkey. cbn [negb].
  unfold anthropic_try. rewrite Hj. cbn [fst snd].
  split_and!; reflexivity.
Qed.

Lemma anthropic_unparseable_witness :
  status_of
    (fetch Sample.quiet Sample.all_keys
       (Sample.from_client "POST" "/api/anthropic" "" Sample.no_body)
       Sample.fresh) = Some 502.
Proof.
  refine (proj1 (proj2 (anthropic_unparseable Sample.quiet Sample.all_keys
            (Sample.from_client "POST" "/api/anthropic" "" Sample.no_body)
            Sample.fresh "Unexpected end of JSON input" _ _ _ _ _)));
    vm_compute; reflexivity.
Defined.

(** C10 as stated fails for a client over its quota: 429, not 502. *)
Lemma anthropic_unparseable_limited :
  let request := Sample.from_client "POST" "/api/anthropic" "" Sample.no_body in
  method request = "POST"
  ∧ pathname request = "/api/anthropic"
  ∧ JS.present (ANTHROPIC_API_KEY Sample.all_keys) = true
  ∧ json request = inl "Unexpected end of JSON input"
  ∧ status_of (fetch Sample.quiet Sample.all_keys request Sample.exhausted)
    = Some 429.
Proof. vm_compute. auto. Qed.

(** [body.messages] is not an array when the parsed body has no such
    property. *)
Lemma lacks_messages props :
  JS.assoc "messages" props = None →
  JS.isArray (prop (JS.VObj props) "messages") = false.
Proof. intros H. unfold prop. cbn [JS.get]. rewrite H. reflexivity. Qed.

(** C7, as the code has it. A POST to [/api/anthropic] that the limiter
    admits, with the credential set, whose parsed body is not [null] and
    whose [messages] is missing or not an array, is answered 400; the body
    has been parsed and nothing is sent upstream. *)
Theorem anthropic_invalid (w : World) (env : Env) (request : Request)
    (st : Store) (body : JS.value) :
  method request = "POST" → pathname request = "/api/anthropic" →
  JS.present (ANTHROPIC_API_KEY env) = true →
  json request = inr body →
  body ≠ JS.VNull → body ≠ JS.VUndefined →
  JS.isArray (prop body "messages") = false →
  admitted w request st = true →
  let out := fetch w env request st in
  response out =
    Some (corsResponse env (origin_of request)
            (Response_json
               (JS.VObj [("error", JS.VStr "Ongeldig request: messages array vereist")])
               400))
  ∧ status_of out = Some 400
  ∧ effects out = [ELimit (clientIP_of request); EParseBody]
  ∧ upstream_calls (effects out) = [].
Proof.
  intros Hm Hp Hkey Hj Hnull Hundef Harr Ha out. subst out.
  rewrite fetch_anthropic by assumption. rewrite Hkey. cbn [negb].
  unfold anthropic_try. rewrite Hj.
  assert (Hget : JS.get body "messages" = Some (prop body "messages")).
  { unfold prop. destruct body; try reflexivity; contradiction. }
  rewrite Hget, Harr, orb_true_r. cbn [fst snd].
  split_and!; reflexivity.
Qed.

Lemma anthropic_invalid_witness :
  status_of
    (fetch Sample.quiet Sample.all_keys
       (Sample.from_client "POST" "/api/anthropic" ""
          (inr (JS.VObj [("messages", JS.VStr "hi")])))
       Sample.fresh) = Some 400.
Proof.
  refine (proj1 (proj2 (anthropic_invalid Sample.quiet Sample.all_keys
            (Sample.from_client "POST" "/api/anthropic" ""
               (inr (JS.VObj [("messages", JS.VStr "hi")])))
            Sample.fresh (JS.VObj [("messages", JS.VStr "hi")])
            _ _ _ _ _ _ _ _))); try discriminate; vm_compute; reflexivity.
Defined.

(** C7 as stated fails twice: for a client over its quota (429), and for
    the body [null], which has no [messages] field: reading the property
    throws inside the [try] block and the answer is 502. *)
Lemma anthropic_invalid_not_400 :
  let missing := Sample.from_client "POST" "/api/anthropic" "" (inr (JS.VObj [])) in
  let null := Sample.from_client "POST" "/api/anthropic" "" (inr JS.VNull) in
  JS.present (ANTHROPIC_API_KEY Sample.all_keys) = true
  ∧ status_of (fetch Sample.quiet Sample.all_keys missing Sample.exhausted)
    = Some 429
  ∧ status_of (fetch Sample.quiet Sample.all_keys null Sample.fresh)
    = Some 502
  ∧ body_of (fetch Sample.quiet Sample.all_keys null Sample.fresh)
    = Some (BJson (JS.VObj [("error", JS.VStr "Anthropic proxy mislukt");
                            ("detail", JS.VStr null_read_message)])).
Proof. vm_compute. auto. Qed.

Lemma truthy_num q :
  JS.truthy (JS.VNum (JS.Fin q)) = negb (bool_decide (q = 0%Qc)).
Proof.
  cbn [JS.truthy]. f_equal.
  destruct (bool_decide_reflect (q = 0%Qc)) as [->|Hne]; [reflexivity|].
  destruct (Qeq_bool q 0) eqn:Hq; [|reflexivity].
  apply Qeq_bool_iff in Hq. exfalso. apply Hne. apply Qc_is_canon. exact Hq.
Qed.

(** What the route forwards when the fields are as an API client sends
    them: a number that is not zero is clamped, a missing field gets the
    default, a number that is zero is replaced by the default as well. *)
Lemma anthropic_body_fields w body :
  let sent := anthropic_body w body in
  (∀ q, prop body "max_tokens" = JS.VNum (JS.Fin q) → q ≠ 0%Qc →
        JS.get sent "max_tokens" =
          Some (JS.VNum (JS.min (JS.Fin q) (JS.Fin (Q2Qc 4096)))))
  ∧ (prop body "max_tokens" = JS.VUndefined ∨ prop body "max_tokens" = JS.num 0 →
     JS.get sent "max_tokens" = Some (JS.num 2048))
  ∧ (∀ q, prop body "temperature" = JS.VNum (JS.Fin q) → q ≠ 0%Qc →
        JS.get sent "temperature" =
          Some (JS.VNum (JS.min (JS.Fin q) (JS.Fin (Q2Qc 1)))))
  ∧ (prop body "temperature" = JS.VUndefined ∨ prop body "temperature" = JS.num 0 →
     JS.get sent "temperature" = Some (JS.dec 7 10))
  ∧ (∀ l, prop body "messages" = JS.VArr l →
        JS.get sent "messages" = Some (JS.VArr (take 10 l))
        ∧ (length (take 10 l) <= 10)%nat)
  ∧ (∀ s, prop body "model" = JS.VStr s → s ≠ "" →
        JS.get sent "model" = Some (JS.VStr s))
  ∧ (prop body "model" = JS.VUndefined →
     JS.get sent "model" = Some (JS.VStr "claude-sonnet-4-5-20250929"))
  ∧ (∀ s, prop body "system" = JS.VStr s → JS.get sent "system" = Some (JS.VStr s))
  ∧ (prop body "system" = JS.VUndefined → JS.get sent "system" = Some (JS.VStr "")).
Proof.
  intros sent. subst sent. unfold anthropic_body. cbn [JS.get JS.assoc].
  change ("max_tokens" =? "model")%string with false.
  change ("max_tokens" =? "max_tokens")%string with true.
  change ("temperature" =? "model")%string with false.
  change ("temperature" =? "max_tokens")%string with false.
  change ("temperature" =? "temperature")%string with true.
  change ("messages" =? "model")%string with false.
  change ("messages" =? "max_tokens")%string with false.
  change ("messages" =? "temperature")%string with false.
  change ("messages" =? "system")%string with false.
  change ("messages" =? "messages")%string with true.
  change ("model" =? "model")%string with true.
  change ("system" =? "model")%string with false.
  change ("system" =? "max_tokens")%string with false.
  change ("system" =? "temperature")%string with false.
  change ("system" =? "system")%string with true.
  cbn [default from_option id].
  split_and!.
  - intros q -> Hq. unfold JS.or_else. rewrite truthy_num.
    rewrite bool_decide_eq_false_2 by exact Hq. reflexivity.
  - intros [-> | ->]; reflexivity.
  - intros q -> Hq. unfold JS.or_else. rewrite truthy_num.
    rewrite bool_decide_eq_false_2 by exact Hq. reflexivity.
  - intros [-> | ->]; reflexivity.
  - intros l ->. split; [reflexivity|]. rewrite length_take. lia.
  - intros s -> Hs. unfold JS.or_else. cbn [JS.truthy].
    apply String.eqb_neq in Hs. rewrite Hs. reflexivity.
  - intros ->. reflexivity.
  - intros s ->. unfold JS.or_else. cbn [JS.truthy].
    destruct (String.eqb_spec s "") as [->|_]; reflexivity.
  - intros ->. reflexivity.
Qed.

(** A valid request that the limiter admits makes one outbound call, with
    the body [anthropic_body] builds. *)
Lemma anthropic_forwards w env request st body l :
  method request = "POST" → pathname request = "/api/anthropic" →
  JS.present (ANTHROPIC_API_KEY env) = true →
  json request = inr body → JS.get body "messages" = Some (JS.VArr l) →
  admitted w request st = true →
  upstream_calls (effects (fetch w env request st)) = [anthropic_request w env body]
  ∧ forwarded "messages" (anthropic_request w env body) = Some (JS.VArr (take 10 l)).
Proof.
  intros Hm Hp Hkey Hj Hmsg Ha.
  rewrite fetch_anthropic by assumption. rewrite Hkey. cbn [negb effects].
  unfold anthropic_try. rewrite Hj, Hmsg. cbn [JS.truthy JS.isArray negb orb].
  split.
  - destruct (upstream w (anthropic_request w env body)) as [msg|u];
      [reflexivity|].
    destruct (new_Response _ _ _ _); reflexivity.
  - unfold forwarded, anthropic_request. cbn [rq_body].
    destruct (anthropic_body_fields w body) as (_ & _ & _ & _ & Hl & _).
    apply Hl. unfold prop. rewrite Hmsg. reflexivity.
Qed.

(** C1 at a request that sets [temperature] and [max_tokens] to 0: the
    proxy forwards 0.7 and 2048, the defaults of an unset field, where
    [min(0, 1.0)] and [min(0, 4096)] are 0.  The other fields go through:
    one message, the default model, the empty system prompt. *)
Theorem anthropic_zero_fields :
  let body :=
    JS.VObj [ ("messages", JS.VArr [Sample.hello]);
              ("max_tokens", JS.num 0);
              ("temperature", JS.num 0) ] in
  let out :=
    fetch Sample.quiet Sample.all_keys
      (Sample.from_client "POST" "/api/anthropic" "" (inr body)) Sample.fresh in
  map (fun rq => (forwarded "temperature" rq, forwarded "max_tokens" rq))
      (upstream_calls (effects out))
    = [(Some (JS.dec 7 10), Some (JS.num 2048))]
  ∧ JS.min (JS.Fin (Q2Qc 0)) (JS.Fin (Q2Qc 1)) = JS.Fin (Q2Qc 0)
  ∧ JS.min (JS.Fin (Q2Qc 0)) (JS.Fin (Q2Qc 4096)) = JS.Fin (Q2Qc 0)
  ∧ map (forwarded "messages") (upstream_calls (effects out))
    = [Some (JS.VArr [Sample.hello])]
  ∧ map (forwarded "model") (upstream_calls (effects out))
    = [Some (JS.VStr "claude-sonnet-4-5-20250929")].
Proof. vm_compute. auto. Qed.

(** ** Route matching *)

Lemma find_none {A} (f : A → bool) (l : list A) :
  (∀ x, x ∈ l → f x = false) → List.find f l = None.
Proof.
  induction l as [|a l IH]; intros H; [reflexivity|]. cbn [List.find].
  rewrite (H a) by apply list_elem_of_here.
  apply IH. intros x Hx. apply H. apply list_elem_of_further. exact Hx.
Qed.

Lemma matchRoute_none path :
  (∀ prefix route, (prefix, route) ∈ API_ROUTES → JS.startsWith path prefix = false) →
  matchRoute path = None.
Proof.
  intros H. apply find_none. intros [prefix route] Hin. apply (H prefix route Hin).
Qed.

(** The three prefixes exclude one another, so the first match is the only
    one; and none of them is a prefix of [/api/anthropic]. *)
Lemma matchRoute_member path prefix route :
  (prefix, route) ∈ API_ROUTES → JS.startsWith path prefix = true →
  matchRoute path = Some (prefix, route) ∧ path ≠ "/api/anthropic".
Proof.
  unfold API_ROUTES. rewrite !elem_of_cons, elem_of_nil.
  intros [H|[H|[H|[]]]] Hsw; injection H as -> ->;
    apply startsWith_split in Hsw; rewrite Hsw;
    (split; [reflexivity | cbv [String.append]; discriminate]).
Qed.

(** The URL the code builds is the one the spec describes. *)
Lemma targetUrl_spec prefix route env request :
  (prefix, route) ∈ API_ROUTES →
  targetUrl_of prefix route env request = spec_target prefix route env request.
Proof.
  unfold API_ROUTES. rewrite !elem_of_cons, elem_of_nil.
  intros [H|[H|[H|[]]]]; injection H as -> ->;
    unfold targetUrl_of, spec_target, injected_key; cbn [addKey target String.eqb];
    change ("/api/kbo" =? "/api/gnews")%string with false;
    change ("/api/kbo" =? "/api/finnhub")%string with false;
    change ("/api/gnews" =? "/api/gnews")%string with true;
    change ("/api/finnhub" =? "/api/gnews")%string with false;
    change ("/api/finnhub" =? "/api/finnhub")%string with true;
    cbv iota; try reflexivity.
  - unfold gnews_addKey, query_key.
    destruct (GNEWS_API_KEY env) as [k|]; [|reflexivity].
    destruct (JS.present (Some k)); reflexivity.
  - unfold finnhub_addKey, query_key.
    destruct (FINNHUB_KEY env) as [k|]; [|reflexivity].
    destruct (JS.present (Some k)); reflexivity.
Qed.




(** * Further properties of the code *)

(** ** The cache on its own *)

(** X1. Write then read: a read of the key just written, before the new
    entry's expiry (the write's clock reading plus 300 s), returns exactly
    the written body, status and content type and leaves the table alone,
    whatever the key held before; from the expiry on, the read returns
    nothing and removes the entry. *)
Theorem setCache_then_getCached (t_sweep t_put now : Z) (key b ct : string)
    (s : Z) (cache : gmap string CacheEntry) :
  let c := setCache t_sweep t_put key b s ct cache in
  (now < t_put + 300000 →
   getCached now key c = (c, Some (mkCE b s ct (t_put + 300000))))
  ∧ (t_put + 300000 <= now →
     getCached now key c = (delete key c, None)
     ∧ (getCached now key c).1 !! key = None).
Proof.
  intros c. pose proof (setCache_lookup t_sweep t_put key b s ct cache) as Hk.
  fold c in Hk. split.
  - intros Hlt. apply getCached_fresh; [exact Hk | exact Hlt].
  - intros Hle. rewrite (getCached_expired now key c _ Hk) by exact Hle.
    split; [reflexivity | apply lookup_delete_eq].
Qed.

(** X2. What a write does to the other keys. No entry appears under
    another key, and an entry whose expiry is not before the sweep's clock
    reading stays as it is. A table of at most 500 entries is not swept at
    all. A table of more than 500 entries is swept: another key's entry is
    left exactly when its expiry is not before the sweep's clock reading,
    so that every entry with an earlier expiry is gone; the entry whose
    expiry equals the reading stays, although [getCached] at that same
    reading no longer returns it. *)
Theorem setCache_other_keys (t_sweep t_put : Z) (key b ct : string) (s : Z)
    (cache : gmap string CacheEntry) (k : string) :
  k ≠ key →
  let c := setCache t_sweep t_put key b s ct cache in
  (∀ e, c !! k = Some e → cache !! k = Some e)
  ∧ (∀ e, cache !! k = Some e → t_sweep <= expiresAt e → c !! k = Some e)
  ∧ (Z.of_nat (size cache) <= 500 → c !! k = cache !! k)
  ∧ (Z.of_nat (size cache) > 500 →
     (∀ e, c !! k = Some e ↔ cache !! k = Some e ∧ t_sweep <= expiresAt e)
     ∧ (∀ e, cache !! k = Some e → expiresAt e < t_sweep → c !! k = None)
     ∧ (∀ e, cache !! k = Some e → expiresAt e = t_sweep →
             c !! k = Some e ∧ (getCached t_sweep k c).2 = None)).
Proof.
  intros Hne c. subst c. unfold setCache.
  destruct (decide (Z.of_nat (size cache) > 500)) as [Hbig|Hsmall].
  - assert (Hiff : ∀ e,
      <[key:=mkCE b s ct (t_put + CACHE_TTL)]>
        (filter (fun kv : string * CacheEntry => ¬ t_sweep > expiresAt kv.2) cache)
        !! k = Some e ↔ cache !! k = Some e ∧ t_sweep <= expiresAt e).
    { intros e. rewrite lookup_insert_ne by congruence.
      rewrite map_lookup_filter_Some. cbn [snd]. split; intros [H1 H2]; split;
        auto; lia. }
    split_and!.
    + intros e He. apply Hiff in He. tauto.
    + intros e He Hlive. apply Hiff. auto.
    + lia.
    + intros _. split_and!.
      * exact Hiff.
      * intros e He Hold.
        apply eq_None_not_Some. intros [e' Hc].
        apply Hiff in Hc as [Hc Hlive]. rewrite He in Hc. injection Hc as <-. lia.
      * intros e He Heq.
        assert (Hc : <[key:=mkCE b s ct (t_put + CACHE_TTL)]>
                       (filter (fun kv : string * CacheEntry =>
                                  ¬ t_sweep > expiresAt kv.2) cache) !! k = Some e)
          by (apply Hiff; split; [exact He | lia]).
        split; [exact Hc|].
        rewrite (getCached_expired t_sweep k _ e Hc) by lia. reflexivity.
  - rewrite !lookup_insert_ne by congruence. split_and!; auto. lia.
Qed.

(** On a table of 501 entries, entry [n] expiring at [n], a write at clock
    reading 100 removes entry 99 and leaves entries 100 and 101. *)
Lemma setCache_other_keys_witness :
  let c := setCache 100 100 "/api/kbo/new" "{}" 200 "application/json"
             Sample2.crowded in
  c !! Sample2.numbered 99 = None
  ∧ c !! Sample2.numbered 100 = Some (mkCE "{}" 200 "application/json" 100)
  ∧ c !! Sample2.numbered 101 = Some (mkCE "{}" 200 "application/json" 101).
Proof.
  intros c. subst c.
  assert (Hbig : Z.of_nat (size Sample2.crowded) > 500)
    by (vm_compute; reflexivity).
  split_and!.
  - destruct (setCache_other_keys 100 100 "/api/kbo/new" "{}" "application/json"
                200 Sample2.crowded (Sample2.numbered 99))
      as (_ & _ & _ & Hs); [vm_compute; discriminate|].
    destruct (Hs Hbig) as (_ & Hgone & _).
    apply (Hgone (mkCE "{}" 200 "application/json" 99)); vm_compute; reflexivity.
  - destruct (setCache_other_keys 100 100 "/api/kbo/new" "{}" "application/json"
                200 Sample2.crowded (Sample2.numbered 100))
      as (_ & _ & _ & Hs); [vm_compute; discriminate|].
    destruct (Hs Hbig) as (_ & _ & Hedge).
    apply (Hedge (mkCE "{}" 200 "application/json" 100)); vm_compute; reflexivity.
  - destruct (setCache_other_keys 100 100 "/api/kbo/new" "{}" "application/json"
                200 Sample2.crowded (Sample2.numbered 101))
      as (_ & _ & _ & Hs); [vm_compute; discriminate|].
    destruct (Hs Hbig) as (Hiff & _).
    apply Hiff. split; [vm_compute; reflexivity | vm_compute; discriminate].
Defined.

(** X3. The table has no hard ceiling: when no entry has expired at the
    sweep's clock reading, writing a key that is not there grows the table
    by one, however large it already is. *)
Theorem setCache_grows (t_sweep t_put : Z) (key b ct : string) (s : Z)
    (cache : gmap string CacheEntry) :
  (∀ k e, cache !! k = Some e → t_sweep <= expiresAt e) →
  cache !! key = None →
  size (setCache t_sweep t_put key b s ct cache) = S (size cache).
Proof.
  intros Hlive Hnew. unfold setCache.
  assert (Hid : filter (fun kv : string * CacheEntry => ¬ t_sweep > expiresAt kv.2)
                  cache = cache).
  { apply map_filter_id. intros k e Hk. cbn. specialize (Hlive k e Hk). lia. }
  rewrite Hid. destruct (decide _); apply map_size_insert_None; exact Hnew.
Qed.

Lemma setCache_grows_witness :
  size (setCache 1000 1000 "/api/kbo/a" "{}" 200 "application/json"
          (responseCache Sample.cached)) = 2%nat.
Proof.
  refine (setCache_grows 1000 1000 "/api/kbo/a" "{}" "application/json" 200
            (responseCache Sample.cached) _ _).
  - intros k e Hk. cbn [Sample.cached responseCache] in Hk.
    apply lookup_singleton_Some in Hk as [_ <-]. vm_compute. discriminate.
  - vm_compute. reflexivity.
Defined.

(** ** The limiter on its own *)

Lemma checkRateLimit_no_new now ip ip' (m : gmap string RateLimitEntry) e :
  ip' ≠ ip → (checkRateLimit now ip m).1 !! ip' = Some e → m !! ip' = Some e.
Proof.
  intros Hne. unfold checkRateLimit. cbn [fst].
  destruct (decide (Z.of_nat (size _) > 10000)).
  - rewrite map_lookup_filter_Some, lookup_insert_ne by congruence. tauto.
  - rewrite lookup_insert_ne by congruence. auto.
Qed.

(** The table is swept when, with the caller's entry in it, it holds more
    than 10000 entries. *)
Lemma checkRateLimit_sweeps ip (m : gmap string RateLimitEntry) x :
  Z.of_nat (size (<[ip:=x]> m)) > 10000
  ↔ Z.of_nat (size m) > 10000 ∨ (Z.of_nat (size m) = 10000 ∧ m !! ip = None).
Proof.
  destruct (m !! ip) as [e|] eqn:Hm.
  - rewrite map_size_insert_Some by (rewrite Hm; eauto). split; [auto|].
    intros [H|[_ H]]; [exact H | discriminate H].
  - rewrite map_size_insert_None by exact Hm. split; [|intros [H|[H _]]; lia].
    intros H. destruct (decide (Z.of_nat (size m) > 10000)) as [Hb|Hb];
      [left; exact Hb | right; split; [lia | reflexivity]].
Qed.

(** X4. What a call does to the other clients. No entry is created for
    anyone else, and a client whose window has not closed before the call's
    clock reading keeps its entry as it is. The table is swept exactly when
    it holds more than 10000 entries once the caller's entry is in it: it
    held more than 10000, or exactly 10000 and none for the caller.
    Without a sweep every other entry is untouched; after a sweep another
    client's entry is left exactly when its window's end is not before the
    clock reading. *)
Theorem checkRateLimit_other_clients (now : Z) (ip ip' : string)
    (m : gmap string RateLimitEntry) :
  ip' ≠ ip →
  let m' := (checkRateLimit now ip m).1 in
  let swept :=
    Z.of_nat (size m) > 10000 ∨ (Z.of_nat (size m) = 10000 ∧ m !! ip = None) in
  (∀ e, m' !! ip' = Some e → m !! ip' = Some e)
  ∧ (∀ e, m !! ip' = Some e → now <= resetAt e → m' !! ip' = Some e)
  ∧ (¬ swept → m' !! ip' = m !! ip')
  ∧ (swept →
     (∀ e, m' !! ip' = Some e ↔ m !! ip' = Some e ∧ now <= resetAt e)
     ∧ (∀ e, m !! ip' = Some e → resetAt e < now → m' !! ip' = None)).
Proof.
  intros Hne m' swept. subst m' swept. split_and!.
  - intros e. apply checkRateLimit_no_new. exact Hne.
  - intros e Hm Hlive. apply checkRateLimit_other; assumption.
  - intros Hno. unfold checkRateLimit. cbn [fst].
    match goal with |- context [<[ip:=?x]> m] => generalize x; intros x' end.
    rewrite decide_False by (rewrite checkRateLimit_sweeps; exact Hno).
    apply lookup_insert_ne; congruence.
  - intros Hyes.
    assert (Hiff : ∀ e, (checkRateLimit now ip m).1 !! ip' = Some e
                        ↔ m !! ip' = Some e ∧ now <= resetAt e).
    { intros e. unfold checkRateLimit. cbn [fst].
      match goal with |- context [<[ip:=?x]> m] => generalize x; intros x' end.
      rewrite decide_True by (rewrite checkRateLimit_sweeps; exact Hyes).
      rewrite map_lookup_filter_Some, lookup_insert_ne by congruence. cbn [snd].
      split; intros [H1 H2]; split; auto; lia. }
    split; [exact Hiff|].
    intros e He Hold.
    apply eq_None_not_Some. intros [e' Hc].
    apply Hiff in Hc as [Hc Hlive]. rewrite He in Hc. injection Hc as <-. lia.
Qed.

(** On a table of exactly 10000 clients, client [n] with a window ending at
    [n], the call of a client that is not in the table, at clock reading
    100, sweeps: client 99 is removed, clients 100 and 101 stay. *)
Lemma checkRateLimit_other_clients_witness :
  let m' := (checkRateLimit 100 "198.51.100.1" Sample2.busy).1 in
  m' !! Sample2.client 99 = None
  ∧ m' !! Sample2.client 100 = Some (mkRL 1 100)
  ∧ m' !! Sample2.client 101 = Some (mkRL 1 101).
Proof.
  intros m'. subst m'.
  assert (Hsw : Z.of_nat (size Sample2.busy) > 10000
                ∨ (Z.of_nat (size Sample2.busy) = 10000
                   ∧ Sample2.busy !! "198.51.100.1" = None)).
  { right. split; vm_compute; reflexivity. }
  split_and!.
  - destruct (checkRateLimit_other_clients 100 "198.51.100.1" (Sample2.client 99)
                Sample2.busy) as (_ & _ & _ & Hs); [vm_compute; discriminate|].
    destruct (Hs Hsw) as [_ Hgone].
    apply (Hgone (mkRL 1 99)); vm_compute; reflexivity.
  - destruct (checkRateLimit_other_clients 100 "198.51.100.1" (Sample2.client 100)
                Sample2.busy) as (_ & _ & _ & Hs); [vm_compute; discriminate|].
    destruct (Hs Hsw) as [Hiff _].
    apply Hiff. split; [vm_compute; reflexivity | vm_compute; discriminate].
  - destruct (checkRateLimit_other_clients 100 "198.51.100.1" (Sample2.client 101)
                Sample2.busy) as (_ & _ & _ & Hs); [vm_compute; discriminate|].
    destruct (Hs Hsw) as [Hiff _].
    apply Hiff. split; [vm_compute; reflexivity | vm_compute; discriminate].
Defined.

Lemma calls_of_app ip (h l : list (string * Z)) :
  calls_of ip (h ++ l) = (calls_of ip h + calls_of ip l)%nat.
Proof. unfold calls_of. rewrite filter_app, length_app. reflexivity. Qed.

(** The table never counts more calls for a client than the client made. *)
Lemma serve_counts calls : ∀ (h : list (string * Z)) (m : gmap string RateLimitEntry),
  (∀ ip e, m !! ip = Some e → count e <= Z.of_nat (calls_of ip h)) →
  ∀ i ip, serve calls m !! i = Some (ip, false) →
          (20 < calls_of ip (h ++ take (S i) calls))%nat.
Proof.
  induction calls as [|[ip0 now] calls IH]; intros h m Inv i ip Hi.
  { destruct i; discriminate Hi. }
  cbn [serve] in Hi.
  destruct (checkRateLimit now ip0 m) as [m' v] eqn:Hc.
  pose proof (checkRateLimit_own now ip0 m) as Hown.
  pose proof (checkRateLimit_verdict now ip0 m _ Hown) as Hv.
  rewrite Hc in Hown, Hv. cbn [fst snd] in Hown, Hv.
  assert (Hcount : ∀ e', m' !! ip0 = Some e' →
                     count e' <= Z.of_nat (calls_of ip0 h) + 1).
  { intros e'. rewrite Hown. intros [= <-].
    destruct (m !! ip0) as [e|] eqn:Hm; [|cbn; lia].
    specialize (Inv ip0 e Hm). destruct (decide (now > resetAt e)); cbn; lia. }
  assert (Hone : calls_of ip0 [(ip0, now)] = 1%nat).
  { unfold calls_of. rewrite filter_cons_True by reflexivity. reflexivity. }
  destruct i as [|i].
  - cbn in Hi. injection Hi as -> ->.
    symmetry in Hv. apply bool_decide_eq_false in Hv.
    specialize (Hcount _ Hown). unfold RATE_LIMIT_MAX in Hv.
    change (take 1 ((ip, now) :: calls)) with [(ip, now)].
    rewrite calls_of_app, Hone. lia.
  - cbn [lookup list_lookup] in Hi.
    change (take (S (S i)) ((ip0, now) :: calls))
      with ([(ip0, now)] ++ take (S i) calls).
    rewrite app_assoc. apply (IH (h ++ [(ip0, now)]) m'); [|exact Hi].
    intros ip' e' He'. rewrite calls_of_app.
    destruct (decide (ip' = ip0)) as [->|Hne].
    + rewrite Hone. specialize (Hcount _ He'). lia.
    + pose proof (checkRateLimit_no_new now ip0 ip' m e' Hne) as Hold.
      rewrite Hc in Hold. specialize (Inv ip' e' (Hold He')). lia.
Qed.

(** X5. No early denial: on an instance that starts with an empty table,
    whatever the clock does and however the clients' calls interleave, a
    call that is denied is at least the 21st call that client has made. *)
Theorem limiter_no_early_denial (calls : list (string * Z)) (i : nat) (ip : string) :
  serve calls ∅ !! i = Some (ip, false) →
  (20 < calls_of ip (take (S i) calls))%nat.
Proof.
  intros Hi. apply (serve_counts calls [] ∅); [|exact Hi].
  intros ip' e He. rewrite lookup_empty in He. discriminate He.
Qed.

Lemma limiter_no_early_denial_witness :
  (20 < calls_of "a" (take 22 (("b", 5%Z) :: replicate 21 ("a", 7%Z))))%nat.
Proof.
  refine (limiter_no_early_denial (("b", 5) :: replicate 21 ("a", 7)) 21 "a" _).
  vm_compute. reflexivity.
Defined.

(** ** The handler as a whole *)

(** The four shapes of a run: the preflight; an answer right after the
    limiter (429, health, 503); the Anthropic route; a generic route. *)
Lemma fetch_split w env request st :
  (method request = "OPTIONS"
   ∧ fetch w env request st =
       mkOut (Some (corsResponse env (origin_of request) (mkResp 204 ∅ BNull)))
             st [])
  ∨ (method request ≠ "OPTIONS"
     ∧ ∃ r, fetch w env request st =
              mkOut (Some (corsResponse env (origin_of request) r))
                    (limited w request st) [ELimit (clientIP_of request)])
  ∨ (method request = "POST" ∧ pathname request = "/api/anthropic"
     ∧ JS.present (ANTHROPIC_API_KEY env) = true
     ∧ fetch w env request st =
         mkOut (Some (corsResponse env (origin_of request)
                        (anthropic_try w env request).1))
               (limited w request st)
               (ELimit (clientIP_of request) :: (anthropic_try w env request).2))
  ∨ (method request ≠ "OPTIONS"
     ∧ ¬ (pathname request = "/api/anthropic" ∧ method request = "POST")
     ∧ GenericRun w env request st (fetch w env request st)).
Proof.
  destruct (String.eqb_spec (method request) "OPTIONS") as [Hm|Hm].
  { left. split; [exact Hm | apply fetch_options; exact Hm]. }
  right.
  destruct (admitted w request st) eqn:Ha.
  2: { left. split; [exact Hm|]. rewrite fetch_denied by assumption. eauto. }
  destruct (String.eqb_spec (pathname request) "/") as [Hp1|Hp1].
  { left. split; [exact Hm|]. rewrite fetch_health by auto. eauto. }
  destruct (String.eqb_spec (pathname request) "/health") as [Hp2|Hp2].
  { left. split; [exact Hm|]. rewrite fetch_health by auto. eauto. }
  destruct (String.eqb_spec (pathname request) "/api/anthropic") as [Hp3|Hp3];
    [destruct (String.eqb_spec (method request) "POST") as [Hm'|Hm']|].
  - rewrite fetch_anthropic by assumption.
    destruct (JS.present (ANTHROPIC_API_KEY env)) eqn:Hkey; cbn [negb].
    + right. left. auto.
    + left. split; [exact Hm | eauto].
  - right. right. split_and!; [exact Hm | tauto | apply fetch_generic_run; tauto].
  - right. right. split_and!; [exact Hm | tauto | apply fetch_generic_run; tauto].
Qed.

(** What the Anthropic route records: the parse, then at most the one call. *)
Lemma anthropic_try_effects w env request :
  (anthropic_try w env request).2 = [EParseBody]
  ∨ ∃ body l, json request = inr body
      ∧ JS.get body "messages" = Some (JS.VArr l)
      ∧ (anthropic_try w env request).2 =
          [EParseBody; EUpstream (anthropic_request w env body)].
Proof.
  unfold anthropic_try.
  destruct (json request) as [msg|body]; [left; reflexivity|].
  destruct (JS.get body "messages") as [msgs|] eqn:Hg; [|left; reflexivity].
  destruct msgs; cbn [JS.truthy JS.isArray negb orb];
    try (left; reflexivity);
    try (destruct (negb _); left; reflexivity).
  right. exists body, items. split_and!; [reflexivity | exact Hg |].
  destruct (upstream w _) as [msg|u]; [reflexivity|].
  destruct (new_Response _ _ _ _); reflexivity.
Qed.

(** X6. One run makes at most one outbound call, and reads the request body
    only on the Anthropic route: when the body is parsed, the request is a
    POST to [/api/anthropic] and the credential is configured. *)
Theorem fetch_one_call (w : World) (env : Env) (request : Request) (st : Store) :
  let out := fetch w env request st in
  (length (upstream_calls (effects out)) <= 1)%nat
  ∧ (EParseBody ∈ effects out →
     method request = "POST" ∧ pathname request = "/api/anthropic"
     ∧ JS.present (ANTHROPIC_API_KEY env) = true).
Proof.
  intros out. subst out.
  destruct (fetch_split w env request st)
    as [[_ ->] | [[_ [r ->]] | [(Hm & Hp & Hk & ->) | (_ & _ & Hrun)]]];
    cbn [effects].
  - split; [cbn; lia | intros H; inversion H].
  - split; [cbn; lia|]. intros H. apply list_elem_of_singleton in H. discriminate H.
  - split; [|auto].
    destruct (anthropic_try_effects w env request) as [-> | (b & l & _ & _ & ->)];
      cbn; lia.
  - remember (fetch w env request st) as out eqn:Ho. clear Ho.
    destruct Hrun as [Hr | prefix route e r Hr Hl Hk Hlt Hh
                     | prefix route e msg Hr Hl Hk Hlt Hh
                     | prefix route msg Hr Hn Hup
                     | prefix route u a Hr Hn Hup Hans]; cbn [effects].
    + split; [cbn; lia|]. intros H. apply list_elem_of_singleton in H. discriminate H.
    + split; [cbn; lia|]. intros H.
      rewrite !elem_of_cons, elem_of_nil in H. destruct H as [H|[H|[]]]; discriminate H.
    + split; [cbn; lia|]. intros H.
      rewrite !elem_of_cons, elem_of_nil in H. destruct H as [H|[H|[]]]; discriminate H.
    + rewrite calls_of_failed. split; [cbn; lia|]. unfold effects_before.
      intros H. destruct (looks_up request);
        rewrite ?elem_of_cons, ?elem_of_app, ?elem_of_cons, ?elem_of_nil in H;
        cbn in H; rewrite ?elem_of_cons, ?elem_of_nil in H;
        intuition discriminate.
    + rewrite calls_of_run. split; [cbn; lia|]. unfold effects_before.
      intros H. destruct (looks_up request), (store_it request u);
        cbn in H; rewrite ?elem_of_cons, ?elem_of_nil in H;
        intuition discriminate.
Qed.

(** X7. Every request but the preflight is counted, whatever becomes of it
    (denied, health check, unknown route, served from the cache): the run
    leaves the rate-limit table exactly as one call of the limiter for the
    request's client leaves it, and the limiter's call is the first thing
    the run does.  A client inside its window ends with one more call on
    its entry and the same [resetAt]. *)
Theorem fetch_counts_request (w : World) (env : Env) (request : Request)
    (st : Store) :
  method request ≠ "OPTIONS" →
  let out := fetch w env request st in
  let ip := clientIP_of request in
  rateLimitMap (store out) = (checkRateLimit (now_limit w) ip (rateLimitMap st)).1
  ∧ head (effects out) = Some (ELimit ip)
  ∧ (∀ e, rateLimitMap st !! ip = Some e → now_limit w <= resetAt e →
          rateLimitMap (store out) !! ip = Some (mkRL (count e + 1) (resetAt e))).
Proof.
  intros Hm out ip. subst out ip.
  assert (Hstore : rateLimitMap (store (fetch w env request st)) =
                   (checkRateLimit (now_limit w) (clientIP_of request)
                      (rateLimitMap st)).1
                   ∧ head (effects (fetch w env request st)) =
                     Some (ELimit (clientIP_of request))).
  { destruct (fetch_split w env request st)
      as [[Ho _] | [[_ [r ->]] | [(_ & _ & _ & ->) | (_ & _ & Hrun)]]].
    - contradiction.
    - split; reflexivity.
    - split; reflexivity.
    - remember (fetch w env request st) as out eqn:Ho. clear Ho.
      destruct Hrun; split; reflexivity. }
  destruct Hstore as [Hs Hh]. split_and!; [exact Hs | exact Hh |].
  intros e He Hlive. rewrite Hs, checkRateLimit_own, He.
  rewrite decide_False by lia. reflexivity.
Qed.

Lemma fetch_counts_request_witness :
  rateLimitMap
    (store (fetch Sample.quiet Sample.no_keys
              (Sample.from_client "GET" "/health" "" Sample.no_body)
              Sample.exhausted)) !! "203.0.113.7"
  = Some (mkRL 21 61000).
Proof.
  refine (proj2 (proj2 (fetch_counts_request Sample.quiet Sample.no_keys
            (Sample.from_client "GET" "/health" "" Sample.no_body)
            Sample.exhausted _)) (mkRL 20 61000) _ _);
    [vm_compute; discriminate | vm_compute; reflexivity | vm_compute; discriminate].
Defined.

(** X8. A client whose window is open and whose entry already counts 20
    calls is answered 429 on every request but the preflight, whatever the
    path and method (the health check and the Anthropic route included):
    the body is not parsed, nothing is sent upstream and the cache is left
    as it was. *)
Theorem fetch_over_quota (w : World) (env : Env) (request : Request)
    (st : Store) (e : RateLimitEntry) :
  method request ≠ "OPTIONS" →
  rateLimitMap st !! clientIP_of request = Some e →
  now_limit w <= resetAt e → 20 <= count e →
  let out := fetch w env request st in
  status_of out = Some 429
  ∧ body_of out =
      Some (BJson (JS.VObj
               [("error",
                 JS.VStr "Rate limit overschreden. Probeer het over een minuut opnieuw.")]))
  ∧ effects out = [ELimit (clientIP_of request)]
  ∧ responseCache (store out) = responseCache st.
Proof.
  intros Hm He Hlive Hfull out. subst out.
  assert (Ha : admitted w request st = false).
  { unfold admitted.
    pose proof (checkRateLimit_own (now_limit w) (clientIP_of request)
                  (rateLimitMap st)) as Hown.
    rewrite He, decide_False in Hown by lia.
    rewrite (checkRateLimit_verdict _ _ _ _ Hown). cbn [count].
    apply bool_decide_eq_false. unfold RATE_LIMIT_MAX. lia. }
  rewrite fetch_denied by assumption. split_and!; reflexivity.
Qed.

Lemma fetch_over_quota_witness :
  status_of (fetch Sample.quiet Sample.all_keys Sample2.chat Sample.exhausted)
  = Some 429.
Proof.
  refine (proj1 (fetch_over_quota Sample.quiet Sample.all_keys Sample2.chat
            Sample.exhausted (mkRL 20 61000) _ _ _ _));
    [vm_compute; discriminate | vm_compute; reflexivity
    | vm_compute; discriminate | vm_compute; discriminate].
Defined.

(** [corsResponse] touches five headers and nothing else. *)
Lemma corsResponse_frame env origin r :
  resp_status (corsResponse env origin r) = resp_status r
  ∧ resp_body (corsResponse env origin r) = resp_body r
  ∧ ∀ k, k ≠ "Access-Control-Allow-Origin" → k ≠ "Access-Control-Allow-Methods" →
         k ≠ "Access-Control-Allow-Headers" → k ≠ "Access-Control-Max-Age" →
         k ≠ "Vary" →
         resp_headers (corsResponse env origin r) !! k = resp_headers r !! k.
Proof.
  split_and!; [reflexivity | reflexivity |].
  intros k H1 H2 H3 H4 H5. unfold corsResponse. cbn [resp_headers].
  rewrite !(lookup_insert_ne _ _ k) by congruence.
  destruct (bool_decide _); [|destruct (_ || _)];
    rewrite lookup_insert_ne by congruence; reflexivity.
Qed.


(** ** Outbound calls *)

Lemma matchRoute_Some path prefix route :
  matchRoute path = Some (prefix, route) →
  (prefix, route) ∈ API_ROUTES ∧ JS.startsWith path prefix = true.
Proof.
  unfold matchRoute. intros H. apply List.find_some in H as [Hin Hsw].
  split; [apply list_elem_of_In; exact Hin | exact Hsw].
Qed.

Lemma startsWith_app a b : JS.startsWith (a +:+ b) a = true.
Proof.
  induction a as [|c a IH]; [reflexivity|].
  change (String c a +:+ b) with (String c (a +:+ b)). cbn [JS.startsWith].
  rewrite Ascii.eqb_refl. exact IH.
Qed.

(** The outbound calls of a run, by route. *)
Lemma upstream_calls_cases w env request st rq :
  rq ∈ upstream_calls (effects (fetch w env request st)) →
  (method request = "POST" ∧ pathname request = "/api/anthropic"
   ∧ JS.present (ANTHROPIC_API_KEY env) = true
   ∧ ∃ body, json request = inr body ∧ rq = anthropic_request w env body)
  ∨ (¬ (pathname request = "/api/anthropic" ∧ method request = "POST")
     ∧ ∃ prefix route, (prefix, route) ∈ API_ROUTES
         ∧ JS.startsWith (pathname request) prefix = true
         ∧ rq = generic_request prefix route env request).
Proof.
  intros Hin.
  destruct (fetch_split w env request st)
    as [[_ Hf] | [[_ [r Hf]] | [(Hm & Hp & Hk & Hf) | (_ & Hna & Hrun)]]].
  - rewrite Hf in Hin. inversion Hin.
  - rewrite Hf in Hin. inversion Hin.
  - left. rewrite Hf in Hin. cbn [effects] in Hin.
    destruct (anthropic_try_effects w env request) as [He | (b & l & Hj & _ & He)];
      rewrite He in Hin; cbn in Hin.
    + inversion Hin.
    + apply list_elem_of_singleton in Hin as ->. eauto 10.
  - right. split; [exact Hna|].
    remember (fetch w env request st) as out eqn:Ho. clear Ho.
    destruct Hrun as [Hr | prefix route e r Hr Hl Hk Hlt Hh
                     | prefix route e msg Hr Hl Hk Hlt Hh
                     | prefix route msg Hr Hn Hup
                     | prefix route u a Hr Hn Hup Hans]; cbn [effects] in Hin.
    + inversion Hin.
    + inversion Hin.
    + inversion Hin.
    + rewrite calls_of_failed in Hin. apply list_elem_of_singleton in Hin as ->.
      apply matchRoute_Some in Hr as [Hr Hsw]. eauto.
    + rewrite calls_of_run in Hin. apply list_elem_of_singleton in Hin as ->.
      apply matchRoute_Some in Hr as [Hr Hsw]. eauto.
Qed.

(** X10. On the generic routes the inbound body is never forwarded: an
    outbound call of a request that is not a POST to [/api/anthropic] has
    no body, uses the inbound method, goes to the URL of the unique route
    whose prefix the path starts with, and carries that route's headers. *)
Theorem generic_call_shape (w : World) (env : Env) (request : Request)
    (st : Store) (rq : UpstreamRequest) :
  rq ∈ upstream_calls (effects (fetch w env request st)) →
  ¬ (pathname request = "/api/anthropic" ∧ method request = "POST") →
  rq_body rq = None
  ∧ rq_method rq = method request
  ∧ ∃ prefix route,
      (prefix, route) ∈ API_ROUTES
      ∧ JS.startsWith (pathname request) prefix = true
      ∧ rq_url rq = spec_target prefix route env request
      ∧ rq_headers rq = requestHeaders_of route env.
Proof.
  intros Hin Hna.
  destruct (upstream_calls_cases _ _ _ _ _ Hin)
    as [(Hm & Hp & _) | (_ & prefix & route & Hr & Hsw & ->)]; [tauto|].
  split_and!; [reflexivity | reflexivity |].
  exists prefix, route. split_and!; [exact Hr | exact Hsw | | reflexivity].
  apply targetUrl_spec. exact Hr.
Qed.

Lemma generic_call_shape_witness :
  let request :=
    Sample.from_client "POST" "/api/kbo/company" ""
      (inr (JS.VObj [("name", JS.VStr "ACME")])) in
  let rq := generic_request "/api/kbo" Sample2.kbo Sample.all_keys request in
  upstream_calls (effects (fetch Sample.quiet Sample.all_keys request Sample.fresh))
  = [rq]
  ∧ rq_body rq = None ∧ rq_method rq = "POST".
Proof.
  split; [vm_compute; reflexivity|].
  destruct (generic_call_shape Sample.quiet Sample.all_keys
              (Sample.from_client "POST" "/api/kbo/company" ""
                 (inr (JS.VObj [("name", JS.VStr "ACME")])))
              Sample.fresh
              (generic_request "/api/kbo" Sample2.kbo Sample.all_keys
                 (Sample.from_client "POST" "/api/kbo/company" ""
                    (inr (JS.VObj [("name", JS.VStr "ACME")])))))
    as (Hb & Hm & _).
  - vm_compute. apply list_elem_of_here.
  - vm_compute. intros [Hp _]. discriminate Hp.
  - split; [exact Hb | exact Hm].
Defined.

Lemma generic_headers_in prefix route env k v :
  (prefix, route) ∈ API_ROUTES → (k, v) ∈ requestHeaders_of route env →
  k ≠ "x-api-key"
  ∧ (k = "Authorization" →
     prefix = "/api/kbo" ∧ ∃ t, CBEAPI_TOKEN env = Some t ∧ v = "Bearer " +:+ t).
Proof.
  unfold API_ROUTES. rewrite !elem_of_cons, elem_of_nil.
  intros [H|[H|[H|[]]]]; injection H as -> ->;
    unfold requestHeaders_of, kbo_addHeaders; cbn [addHeaders];
    [destruct (CBEAPI_TOKEN env) as [t|]; [destruct (JS.present (Some t))|]|..];
    cbn [app]; rewrite !elem_of_cons, elem_of_nil;
    intros Hin; repeat destruct Hin as [Hin|Hin]; try contradiction;
    injection Hin as -> ->; (split; [discriminate|]); intros Hk;
    try discriminate Hk; eauto.
Qed.

(** X11. Credentials go to their own upstream only.  In any run, an
    outbound call that carries an [x-api-key] header goes to
    [https://api.anthropic.com/v1/messages] and the value is the configured
    [ANTHROPIC_API_KEY]; a call that carries an [Authorization] header is
    made for a path that starts with [/api/kbo], its URL is the string
    [https://cbeapi.be/api] followed by the path after its first 8
    characters and by the query string, so that it starts with
    [https://cbeapi.be/], and the value is [Bearer] followed by the
    configured [CBEAPI_TOKEN].  The URL is a concatenation of strings: the
    path [/api/kbox] gives [https://cbeapi.be/apix]. *)
Theorem credentials_by_upstream (w : World) (env : Env) (request : Request)
    (st : Store) (rq : UpstreamRequest) :
  rq ∈ upstream_calls (effects (fetch w env request st)) →
  (∀ v, ("x-api-key", v) ∈ rq_headers rq →
        rq_url rq = "https://api.anthropic.com/v1/messages"
        ∧ ANTHROPIC_API_KEY env = Some v)
  ∧ (∀ v, ("Authorization", v) ∈ rq_headers rq →
          JS.startsWith (pathname request) "/api/kbo" = true
          ∧ rq_url rq =
              "https://cbeapi.be/api" +:+ JS.slice 8 (pathname request)
                +:+ search request
          ∧ JS.startsWith (rq_url rq) "https://cbeapi.be/" = true
          ∧ ∃ t, CBEAPI_TOKEN env = Some t ∧ v = "Bearer " +:+ t).
Proof.
  intros Hin.
  destruct (upstream_calls_cases _ _ _ _ _ Hin)
    as [(_ & _ & Hk & body & _ & ->) | (_ & prefix & route & Hr & Hsw & ->)].
  - cbn [anthropic_request rq_headers rq_url]. split.
    + intros v Hv. split; [reflexivity|].
      rewrite !elem_of_cons, elem_of_nil in Hv.
      destruct Hv as [Hv|[Hv|[Hv|[]]]]; try discriminate Hv.
      injection Hv as ->. destruct (ANTHROPIC_API_KEY env); [reflexivity|discriminate Hk].
    + intros v Hv. rewrite !elem_of_cons, elem_of_nil in Hv.
      destruct Hv as [Hv|[Hv|[Hv|[]]]]; discriminate Hv.
  - cbn [generic_request rq_headers rq_url]. split.
    + intros v Hv. destruct (generic_headers_in _ _ _ _ _ Hr Hv) as [Hno _].
      contradiction.
    + intros v Hv. destruct (generic_headers_in _ _ _ _ _ Hr Hv) as [_ Hauth].
      destruct (Hauth eq_refl) as [-> Ht].
      unfold API_ROUTES in Hr. rewrite !elem_of_cons, elem_of_nil in Hr.
      destruct Hr as [Hr|[Hr|[Hr|[]]]]; try discriminate Hr.
      injection Hr as ->. unfold targetUrl_of. cbn [addKey target].
      split_and!; [exact Hsw | reflexivity | | exact Ht].
      change ("https://cbeapi.be/api"
                +:+ JS.slice (String.length "/api/kbo") (pathname request)
                +:+ search request)
        with ("https://cbeapi.be/"
                +:+ ("api" +:+ JS.slice (String.length "/api/kbo") (pathname request)
                       +:+ search request)).
      apply startsWith_app.
Qed.

(** The chat request's call carries the Anthropic key and the company
    look-up's call the data-lookup token, each to its own upstream. *)
Lemma credentials_by_upstream_witness :
  ANTHROPIC_API_KEY Sample.all_keys = Some "sk"
  ∧ rq_url (generic_request "/api/kbo" Sample2.kbo Sample.all_keys Sample2.company)
    = "https://cbeapi.be/api" +:+ JS.slice 8 (pathname Sample2.company)
        +:+ search Sample2.company
  ∧ ∃ t, CBEAPI_TOKEN Sample.all_keys = Some t ∧ "Bearer tok" = "Bearer " +:+ t.
Proof.
  split.
  - refine (proj2 (proj1 (credentials_by_upstream Sample.quiet Sample.all_keys
              Sample2.chat Sample.fresh
              (anthropic_request Sample.quiet Sample.all_keys
                 (JS.VObj [("messages", JS.VArr [Sample.hello])])) _) "sk" _)).
    + vm_compute. apply list_elem_of_here.
    + vm_compute. apply list_elem_of_further, list_elem_of_here.
  - destruct (credentials_by_upstream Sample.quiet Sample.all_keys
                Sample2.company Sample.fresh
                (generic_request "/api/kbo" Sample2.kbo Sample.all_keys
                   Sample2.company)) as [_ Hauth].
    + vm_compute. apply list_elem_of_here.
    + destruct (Hauth "Bearer tok") as (_ & Hurl & _ & Ht).
      * vm_compute. do 2 apply list_elem_of_further. apply list_elem_of_here.
      * split; [exact Hurl | exact Ht].
Defined.

(** X12. The registered prefixes exclude one another: a path starts with at
    most one of them, so the first match in declaration order is the only
    match; and a path that starts with one is none of [/], [/health] and
    [/api/anthropic]. *)
Theorem prefixes_exclusive (path p1 p2 : string) (r1 r2 : Route) :
  (p1, r1) ∈ API_ROUTES → (p2, r2) ∈ API_ROUTES →
  JS.startsWith path p1 = true → JS.startsWith path p2 = true →
  p1 = p2 ∧ r1 = r2 ∧ matchRoute path = Some (p1, r1)
  ∧ path ≠ "/" ∧ path ≠ "/health" ∧ path ≠ "/api/anthropic".
Proof.
  intros H1 H2 Hs1 Hs2.
  destruct (matchRoute_member _ _ _ H1 Hs1) as [Hm1 Hna].
  destruct (matchRoute_member _ _ _ H2 Hs2) as [Hm2 _].
  rewrite Hm1 in Hm2. injection Hm2 as <- <-.
  split_and!; try reflexivity; try assumption.
  - intros ->. unfold API_ROUTES in H1. rewrite !elem_of_cons, elem_of_nil in H1.
    destruct H1 as [H|[H|[H|[]]]]; injection H as -> ->; discriminate Hs1.
  - intros ->. unfold API_ROUTES in H1. rewrite !elem_of_cons, elem_of_nil in H1.
    destruct H1 as [H|[H|[H|[]]]]; injection H as -> ->; discriminate Hs1.
Qed.

Lemma prefixes_exclusive_witness :
  matchRoute "/api/kbo/company/0123456789" = Some ("/api/kbo", Sample2.kbo).
Proof.
  refine (proj1 (proj2 (proj2 (prefixes_exclusive "/api/kbo/company/0123456789"
            "/api/kbo" "/api/kbo" Sample2.kbo Sample2.kbo _ _ _ _))));
    first [apply list_elem_of_here | vm_compute; reflexivity].
Defined.

(** ** The cache inside the handler *)

Lemma registered_not_health path prefix route :
  (prefix, route) ∈ API_ROUTES → JS.startsWith path prefix = true →
  path ≠ "/" ∧ path ≠ "/health".
Proof.
  unfold API_ROUTES. rewrite !elem_of_cons, elem_of_nil.
  intros [H|[H|[H|[]]]] Hsw; injection H as -> ->;
    split; intros ->; discriminate Hsw.
Qed.

(** An admitted request on a registered prefix that is not answered from
    the cache: the run is decided by the upstream's answer. *)
Lemma fetch_upstream w env request st prefix route :
  method request ≠ "OPTIONS" → admitted w request st = true →
  (prefix, route) ∈ API_ROUTES → JS.startsWith (pathname request) prefix = true →
  (looks_up request = true →
   (getCached (now_get w) (cacheKey_of request) (responseCache st)).2 = None) →
  fetch w env request st =
    match upstream w (generic_request prefix route env request) with
    | inl msg =>
        mkOut (Some (corsResponse env (origin_of request)
                       (Response_json (err2 "API request mislukt" msg) 502)))
              (mkStore (rateLimitMap (limited w request st))
                 (cache_after_get w request (responseCache st)))
              (ELimit (clientIP_of request)
                 :: effects_before request
                 ++ [EUpstream (generic_request prefix route env request)])
    | inr u =>
        mkOut (Some (corsResponse env (origin_of request)
                       match miss_response w u with
                       | inl msg => Response_json (err2 "API request mislukt" msg) 502
                       | inr r => r
                       end))
              (mkStore (rateLimitMap (limited w request st))
                 (if store_it request u
                  then setCache (now_sweep w) (now_put w) (cacheKey_of request)
                         (up_text u) (up_status u)
                         (JS.str_or (up_contentType u) "application/json")
                         (cache_after_get w request (responseCache st))
                  else cache_after_get w request (responseCache st)))
              (ELimit (clientIP_of request)
                 :: effects_before request
                 ++ [EUpstream (generic_request prefix route env request)]
                 ++ (if store_it request u
                     then [ECachePut (cacheKey_of request)] else []))
    end.
Proof.
  intros Hm Ha Hin Hsw Hmiss.
  destruct (matchRoute_member _ _ _ Hin Hsw) as [Hr Hna].
  destruct (registered_not_health _ _ _ Hin Hsw) as [Hp1 Hp2].
  assert (Hrun : GenericRun w env request st (fetch w env request st)).
  { apply fetch_generic_run; try assumption. tauto. }
  remember (fetch w env request st) as out eqn:Ho. clear Ho.
  destruct Hrun as [Hr' | prefix' route' e r Hr' Hl Hk Hlt Hh
                   | prefix' route' e msg Hr' Hl Hk Hlt Hh
                   | prefix' route' msg Hr' Hn Hup
                   | prefix' route' u a Hr' Hn Hup Hans].
  - congruence.
  - specialize (Hmiss Hl). rewrite (getCached_fresh _ _ _ e Hk Hlt) in Hmiss.
    discriminate Hmiss.
  - specialize (Hmiss Hl). rewrite (getCached_fresh _ _ _ e Hk Hlt) in Hmiss.
    discriminate Hmiss.
  - assert (prefix' = prefix ∧ route' = route) as [-> ->] by (split; congruence).
    rewrite Hup. reflexivity.
  - assert (prefix' = prefix ∧ route' = route) as [-> ->] by (split; congruence).
    rewrite Hup, Hans. reflexivity.
Qed.

(** X13. Two successive GETs on a cacheable path.  When the first finds no
    live entry and its upstream answers 2xx with a status other than 204
    and 205 (which the [Response] constructor refuses with a text body),
    the first answer is marked [MISS]; if the second arrives, and is
    admitted, before the first write's clock reading plus 300 s, it is
    answered from the cache: it is marked [HIT], makes no outbound call,
    has the same status and body as the first answer, and leaves the cache
    as it found it. *)
Theorem fetch_twice (w1 w2 : World) (env : Env) (request : Request) (st : Store)
    (prefix : string) (route : Route) (u : UpstreamResponse) :
  method request = "GET" →
  JS.startsWith (pathname request) "/api/kbo" = true →
  (prefix, route) ∈ API_ROUTES → JS.startsWith (pathname request) prefix = true →
  admitted w1 request st = true →
  (getCached (now_get w1) (cacheKey_of request) (responseCache st)).2 = None →
  upstream w1 (generic_request prefix route env request) = inr u →
  200 <= up_status u <= 299 → up_status u ≠ 204 → up_status u ≠ 205 →
  let out1 := fetch w1 env request st in
  admitted w2 request (store out1) = true →
  now_get w2 < now_put w1 + 300000 →
  let out2 := fetch w2 env request (store out1) in
  upstream_calls (effects out1) = [generic_request prefix route env request]
  ∧ xcache_of out1 = Some "MISS"
  ∧ xcache_of out2 = Some "HIT"
  ∧ upstream_calls (effects out2) = []
  ∧ status_of out1 = Some (up_status u)
  ∧ status_of out2 = status_of out1
  ∧ body_of out2 = body_of out1
  ∧ body_of out2 = Some (BText (up_text u))
  ∧ responseCache (store out2) = responseCache (store out1).
Proof.
  intros Hm Hkbo Hin Hsw Ha1 Hnone Hup Hok H204 H205 out1.
  assert (Hst : store_it request u = true) by (apply store_it_spec; auto).
  assert (Hacc : ∀ t, refused (up_status u) (BText t) = false)
    by (intros t; apply refused_text; lia).
  subst out1.
  rewrite (fetch_upstream w1 env request st prefix route);
    [| rewrite Hm; discriminate | assumption .. | intros _; exact Hnone].
  rewrite Hup. unfold miss_response.
  rewrite new_Response_accepted by apply Hacc.
  cbn [store effects response]. rewrite calls_of_run, Hst. intros Ha2 Hlt.
  rewrite (fetch_hit w2 env request _
             (mkCE (up_text u) (up_status u)
                (JS.str_or (up_contentType u) "application/json")
                (now_put w1 + 300000)));
    [| exact Hm | exact Ha2 | exact Hkbo | apply setCache_lookup | exact Hlt].
  unfold hit_response. cbn [body status contentType].
  rewrite new_Response_accepted by apply Hacc.
  unfold xcache_of, status_of, body_of.
  cbn [response effects store mbind option_bind fmap option_fmap option_map].
  rewrite !xcache_cors.
  split_and!; reflexivity.
Qed.

Lemma fetch_twice_witness :
  let out1 := fetch Sample.quiet Sample.all_keys Sample2.company Sample.fresh in
  xcache_of (fetch Sample2.later Sample.all_keys Sample2.company (store out1))
  = Some "HIT".
Proof.
  refine (proj1 (proj2 (proj2 (fetch_twice Sample.quiet Sample2.later Sample.all_keys
            Sample2.company Sample.fresh "/api/kbo" Sample2.kbo
            (mkUp 200 (Some "application/json") "{}")
            _ _ _ _ _ _ _ _ _ _ _ _))));
    first [apply list_elem_of_here | vm_compute; reflexivity
          | vm_compute; split; discriminate | vm_compute; discriminate].
Defined.

(** X14. An expired entry is not served and does not outlive the look-up.
    A GET on a cacheable path that finds an entry with [expiresAt <= now]
    makes a fresh outbound call and is never marked [HIT]; when that call
    fails (502) or is answered outside 2xx, the cache is the old one with
    the entry removed; when it is answered 2xx, the key holds the new
    answer.  An answer outside 2xx reaches the client with its status when
    the [Response] constructor accepts that status with a text body, and
    is replaced by 502 when it refuses it. *)
Theorem fetch_expired (w : World) (env : Env) (request : Request) (st : Store)
    (e : CacheEntry) (prefix : string) (route : Route) :
  method request = "GET" →
  JS.startsWith (pathname request) "/api/kbo" = true →
  (prefix, route) ∈ API_ROUTES → JS.startsWith (pathname request) prefix = true →
  admitted w request st = true →
  responseCache st !! cacheKey_of request = Some e →
  expiresAt e <= now_get w →
  let out := fetch w env request st in
  let rq := generic_request prefix route env request in
  upstream_calls (effects out) = [rq]
  ∧ xcache_of out ≠ Some "HIT"
  ∧ (∀ msg, upstream w rq = inl msg →
       status_of out = Some 502
       ∧ responseCache (store out) = delete (cacheKey_of request) (responseCache st))
  ∧ (∀ u, upstream w rq = inr u → ¬ (200 <= up_status u <= 299) →
       responseCache (store out) = delete (cacheKey_of request) (responseCache st)
       ∧ (refused (up_status u) (BText (up_text u)) = false →
          status_of out = Some (up_status u))
       ∧ (refused (up_status u) (BText (up_text u)) = true →
          status_of out = Some 502))
  ∧ (∀ u, upstream w rq = inr u → 200 <= up_status u <= 299 →
       responseCache (store out) !! cacheKey_of request =
         Some (mkCE (up_text u) (up_status u)
                 (JS.str_or (up_contentType u) "application/json")
                 (now_put w + 300000))).
Proof.
  intros Hm Hkbo Hin Hsw Ha Hk Hexp out rq. subst out rq.
  assert (Hl : looks_up request = true).
  { unfold looks_up. rewrite Hm, cacheable_kbo, Hkbo. reflexivity. }
  assert (Hc : cache_after_get w request (responseCache st) =
               delete (cacheKey_of request) (responseCache st)).
  { unfold cache_after_get. rewrite Hl.
    rewrite (getCached_expired _ _ _ e Hk Hexp). reflexivity. }
  rewrite (fetch_upstream w env request st prefix route);
    [| rewrite Hm; discriminate | assumption ..
     | intros _; rewrite (getCached_expired _ _ _ e Hk Hexp); reflexivity].
  destruct (upstream w (generic_request prefix route env request)) as [msg|u].
  - unfold xcache_of, status_of.
    cbn [effects response store responseCache mbind option_bind fmap option_fmap
         option_map].
    rewrite calls_of_failed, xcache_cors, Hc.
    split_and!; [reflexivity | discriminate | | |].
    + intros msg' _. split; reflexivity.
    + intros u Hu. discriminate Hu.
    + intros u Hu. discriminate Hu.
  - unfold xcache_of, status_of.
    cbn [effects response store responseCache mbind option_bind fmap option_fmap
         option_map].
    rewrite calls_of_run, xcache_cors, Hc.
    split_and!; [reflexivity | | | |].
    + apply (xcache_miss_or_502 _ w u). reflexivity.
    + intros msg Hu. discriminate Hu.
    + intros u' [= <-] Hbad. split_and!.
      * destruct (store_it request u) eqn:Hst; [|reflexivity].
        apply store_it_spec in Hst. tauto.
      * intros Hacc. unfold miss_response.
        rewrite new_Response_accepted by exact Hacc. reflexivity.
      * intros Href. unfold miss_response, new_Response. rewrite Href. reflexivity.
    + intros u' [= <-] Hok.
      assert (Hst : store_it request u = true) by (apply store_it_spec; auto).
      rewrite Hst. apply setCache_lookup.
Qed.

Lemma fetch_expired_witness :
  responseCache
    (store (fetch Sample2.much_later Sample.all_keys Sample2.company Sample.cached))
  = ∅.
Proof.
  destruct (fetch_expired Sample2.much_later Sample.all_keys Sample2.company
              Sample.cached (mkCE "{}" 200 "application/json" 5000)
              "/api/kbo" Sample2.kbo)
    as (_ & _ & Hfail & _);
    [vm_compute; reflexivity | vm_compute; reflexivity | apply list_elem_of_here
    | vm_compute; reflexivity | vm_compute; reflexivity | vm_compute; reflexivity
    | vm_compute; discriminate |].
  destruct (Hfail "connection refused" eq_refl) as [_ Hc].
  rewrite Hc. apply delete_singleton_eq.
Defined.

(** X22. When the cache is written.  For an admitted request on a
    registered prefix that is not answered from the cache and whose
    upstream call is answered: the run makes that one call, and the answer
    is written under the request's key exactly when the method is GET, the
    path starts with [/api/kbo] and the status is in 200..299.  When it is
    written the cache is the one [setCache] makes of the cache the look-up
    left, and the key holds the upstream's text, status and content type
    ([application/json] when it declares none), expiring 300 s after the
    write's clock reading; this holds as well for the statuses 204 and 205,
    for which the client is answered 502.  Otherwise nothing is written
    and no entry appears. *)
Theorem cache_written_iff (w : World) (env : Env) (request : Request) (st : Store)
    (prefix : string) (route : Route) (u : UpstreamResponse) :
  method request ≠ "OPTIONS" → admitted w request st = true →
  (prefix, route) ∈ API_ROUTES → JS.startsWith (pathname request) prefix = true →
  (looks_up request = true →
   (getCached (now_get w) (cacheKey_of request) (responseCache st)).2 = None) →
  upstream w (generic_request prefix route env request) = inr u →
  let out := fetch w env request st in
  let key := cacheKey_of request in
  let written :=
    method request = "GET"
    ∧ JS.startsWith (pathname request) "/api/kbo" = true
    ∧ 200 <= up_status u <= 299 in
  upstream_calls (effects out) = [generic_request prefix route env request]
  ∧ (cache_puts (effects out) = [key] ↔ written)
  ∧ (cache_puts (effects out) = [] ↔ ¬ written)
  ∧ (written →
     responseCache (store out) =
       setCache (now_sweep w) (now_put w) key (up_text u) (up_status u)
         (JS.str_or (up_contentType u) "application/json")
         (cache_after_get w request (responseCache st))
     ∧ responseCache (store out) !! key =
         Some (mkCE (up_text u) (up_status u)
                 (JS.str_or (up_contentType u) "application/json")
                 (now_put w + 300000)))
  ∧ (¬ written →
     responseCache (store out) = cache_after_get w request (responseCache st)
     ∧ ∀ k e, responseCache (store out) !! k = Some e →
              responseCache st !! k = Some e).
Proof.
  intros Hm Ha Hin Hsw Hmiss Hup out key written. subst out key written.
  rewrite (fetch_upstream w env request st prefix route) by assumption.
  rewrite Hup. cbn [effects store responseCache].
  rewrite calls_of_run, puts_of_run.
  pose proof (store_it_spec request u) as Hspec.
  destruct (store_it request u).
  - assert (Hw : method request = "GET"
                 ∧ JS.startsWith (pathname request) "/api/kbo" = true
                 ∧ 200 <= up_status u <= 299) by (apply Hspec; reflexivity).
    split_and!.
    + reflexivity.
    + tauto.
    + split; [discriminate | tauto].
    + intros _. split; [reflexivity | apply setCache_lookup].
    + tauto.
  - assert (Hw : ¬ (method request = "GET"
                    ∧ JS.startsWith (pathname request) "/api/kbo" = true
                    ∧ 200 <= up_status u <= 299)).
    { intros H. apply Hspec in H. discriminate H. }
    split_and!.
    + reflexivity.
    + split; [discriminate | tauto].
    + tauto.
    + tauto.
    + intros _. split; [reflexivity|].
      intros k e. unfold cache_after_get.
      destruct (looks_up request); [|auto].
      unfold getCached.
      destruct (responseCache st !! cacheKey_of request) as [e'|]; [|auto].
      destruct (decide _); [auto|]. cbn [fst].
      intros H. apply lookup_delete_Some in H. tauto.
Qed.

(** A first look-up of a company: the answer is written. *)
Lemma cache_written_iff_witness :
  cache_puts
    (effects (fetch Sample.quiet Sample.all_keys Sample2.company Sample.fresh))
  = ["/api/kbo/company/0123456789"].
Proof.
  destruct (cache_written_iff Sample.quiet Sample.all_keys Sample2.company
              Sample.fresh "/api/kbo" Sample2.kbo
              (mkUp 200 (Some "application/json") "{}"))
    as (_ & Hput & _);
    [vm_compute; discriminate | vm_compute; reflexivity | apply list_elem_of_here
    | vm_compute; reflexivity | intros _; vm_compute; reflexivity
    | vm_compute; reflexivity |].
  apply Hput. vm_compute. split_and!; [reflexivity | reflexivity | discriminate
                                       | discriminate].
Defined.

(** ** Pass-through *)

(** X15. The Anthropic route, for a valid request the limiter admits: one
    POST goes to [https://api.anthropic.com/v1/messages]; when the upstream
    answers with a status that the [Response] constructor accepts with a
    text body (200..599 other than 204, 205 and 304), 2xx or not, the
    client gets that status and that text with
    [Content-Type: application/json], whatever content type the upstream
    declared, and no [X-Cache] marker; when the constructor refuses the
    status the answer is the 502 of the [catch] with the constructor's
    message; when the call fails the answer is 502 with the failure's
    message; the cache is never touched. *)
Theorem anthropic_passthrough (w : World) (env : Env) (request : Request)
    (st : Store) (body : JS.value) (l : list JS.value) :
  method request = "POST" → pathname request = "/api/anthropic" →
  JS.present (ANTHROPIC_API_KEY env) = true →
  json request = inr body → JS.get body "messages" = Some (JS.VArr l) →
  admitted w request st = true →
  let out := fetch w env request st in
  let rq := anthropic_request w env body in
  upstream_calls (effects out) = [rq]
  ∧ rq_url rq = "https://api.anthropic.com/v1/messages" ∧ rq_method rq = "POST"
  ∧ (∀ u, upstream w rq = inr u →
       (200 <= up_status u <= 599 → up_status u ≠ 204 → up_status u ≠ 205 →
        up_status u ≠ 304 →
        status_of out = Some (up_status u)
        ∧ body_of out = Some (BText (up_text u))
        ∧ header_of "Content-Type" out = Some "application/json"
        ∧ xcache_of out = None)
       ∧ (refused (up_status u) (BText (up_text u)) = true →
          status_of out = Some 502
          ∧ body_of out =
              Some (BJson (JS.VObj
                      [("error", JS.VStr "Anthropic proxy mislukt");
                       ("detail", JS.VStr (constructor_message w (up_status u)))]))
          ∧ xcache_of out = None))
  ∧ (∀ msg, upstream w rq = inl msg →
       status_of out = Some 502
       ∧ body_of out =
           Some (BJson (JS.VObj [("error", JS.VStr "Anthropic proxy mislukt");
                                 ("detail", JS.VStr msg)])))
  ∧ responseCache (store out) = responseCache st.
Proof.
  intros Hm Hp Hkey Hj Hmsg Ha out rq. subst out rq.
  rewrite fetch_anthropic by assumption. rewrite Hkey. cbn [negb].
  unfold xcache_of, status_of, body_of, header_of.
  cbn [effects response store mbind option_bind fmap option_fmap option_map].
  rewrite xcache_cors.
  unfold anthropic_try. rewrite Hj, Hmsg.
  cbn [JS.truthy JS.isArray negb orb].
  destruct (upstream w (anthropic_request w env body)) as [msg|u].
  - cbn [fst snd].
    split_and!; [reflexivity | reflexivity | reflexivity | | | reflexivity].
    + intros u Hu. discriminate Hu.
    + intros msg' [= <-]. split; reflexivity.
  - split_and!.
    + destruct (new_Response _ _ _ _); reflexivity.
    + reflexivity.
    + reflexivity.
    + intros u' [= <-]. split.
      * intros Hr H204 H205 H304.
        rewrite new_Response_accepted by (apply refused_text; auto).
        cbn [fst snd]. split_and!; [reflexivity | reflexivity | | reflexivity].
        destruct (corsResponse_frame env (origin_of request)
                    (mkResp (up_status u) {[ "Content-Type" := "application/json" ]}
                       (BText (up_text u)))) as (_ & _ & Hk).
        rewrite Hk by discriminate. apply lookup_singleton_eq.
      * intros Href. unfold new_Response. rewrite Href. cbn [fst snd].
        split_and!; reflexivity.
    + intros msg Hu. discriminate Hu.
    + reflexivity.
Qed.

Lemma anthropic_passthrough_witness :
  status_of (fetch Sample2.down Sample.all_keys Sample2.chat Sample.fresh)
  = Some 502.
Proof.
  destruct (anthropic_passthrough Sample2.down Sample.all_keys Sample2.chat
              Sample.fresh (JS.VObj [("messages", JS.VArr [Sample.hello])])
              [Sample.hello])
    as (_ & _ & _ & _ & Hfail & _); [vm_compute; reflexivity .. |].
  exact (proj1 (Hfail "connection refused" eq_refl)).
Defined.

(** X16. The generic routes pass the upstream answer through.  For an
    admitted request on a registered prefix that is not answered from the
    cache: an upstream answer whose status the [Response] constructor
    accepts with a text body (200..599 other than 204, 205 and 304), 2xx
    or not, reaches the client with its status and text, with its content
    type (or [application/json] when it declares none) and marked [MISS];
    an answer whose status the constructor refuses becomes 502 with error
    [API request mislukt] and the constructor's message, unmarked, after
    the cache has been written if the answer was one to cache; a failed
    call gives 502 with error [API request mislukt] and the failure's
    message, and writes nothing to the cache. *)
Theorem generic_passthrough (w : World) (env : Env) (request : Request)
    (st : Store) (prefix : string) (route : Route) :
  method request ≠ "OPTIONS" → admitted w request st = true →
  (prefix, route) ∈ API_ROUTES → JS.startsWith (pathname request) prefix = true →
  (looks_up request = true →
   (getCached (now_get w) (cacheKey_of request) (responseCache st)).2 = None) →
  let out := fetch w env request st in
  let rq := generic_request prefix route env request in
  (∀ u, upstream w rq = inr u →
     (200 <= up_status u <= 599 → up_status u ≠ 204 → up_status u ≠ 205 →
      up_status u ≠ 304 →
      status_of out = Some (up_status u)
      ∧ body_of out = Some (BText (up_text u))
      ∧ header_of "Content-Type" out =
          Some (JS.str_or (up_contentType u) "application/json")
      ∧ xcache_of out = Some "MISS")
     ∧ (refused (up_status u) (BText (up_text u)) = true →
        status_of out = Some 502
        ∧ body_of out =
            Some (BJson (JS.VObj
                    [("error", JS.VStr "API request mislukt");
                     ("detail", JS.VStr (constructor_message w (up_status u)))]))
        ∧ xcache_of out = None
        ∧ cache_puts (effects out)
          = if store_it request u then [cacheKey_of request] else []))
  ∧ (∀ msg, upstream w rq = inl msg →
       status_of out = Some 502
       ∧ body_of out =
           Some (BJson (JS.VObj [("error", JS.VStr "API request mislukt");
                                 ("detail", JS.VStr msg)]))
       ∧ xcache_of out = None
       ∧ cache_puts (effects out) = []).
Proof.
  intros Hm Ha Hin Hsw Hmiss out rq. subst out rq.
  rewrite (fetch_upstream w env request st prefix route) by assumption.
  destruct (upstream w (generic_request prefix route env request)) as [msg|u].
  - unfold xcache_of, status_of, body_of, header_of.
    cbn [effects response store mbind option_bind fmap option_fmap option_map].
    rewrite puts_of_failed, xcache_cors. split.
    + intros u Hu. discriminate Hu.
    + intros msg' [= <-]. split_and!; reflexivity.
  - unfold xcache_of, status_of, body_of, header_of.
    cbn [effects response store mbind option_bind fmap option_fmap option_map].
    rewrite puts_of_run, xcache_cors. split.
    + intros u' [= <-]. split.
      * intros Hr H204 H205 H304. unfold miss_response.
        rewrite new_Response_accepted by (apply refused_text; auto).
        split_and!; [reflexivity | reflexivity | | apply lookup_insert_eq].
        match goal with
        | |- resp_headers (corsResponse _ _ ?r) !! _ = _ =>
            destruct (corsResponse_frame env (origin_of request) r) as (_ & _ & Hk)
        end.
        rewrite Hk by discriminate. cbn [resp_headers].
        rewrite lookup_insert_ne by discriminate. apply lookup_singleton_eq.
      * intros Href. unfold miss_response, new_Response. rewrite Href.
        split_and!; reflexivity.
    + intros msg Hu. discriminate Hu.
Qed.

(** With the upstream answering 204: the client gets 502, and the answer
    has been written to the cache. *)
Lemma generic_passthrough_witness :
  status_of (fetch Sample2.no_content Sample.all_keys Sample2.company Sample.fresh)
  = Some 502
  ∧ cache_puts
      (effects (fetch Sample2.no_content Sample.all_keys Sample2.company
                  Sample.fresh))
    = ["/api/kbo/company/0123456789"].
Proof.
  destruct (generic_passthrough Sample2.no_content Sample.all_keys Sample2.company
              Sample.fresh "/api/kbo" Sample2.kbo)
    as [Hans _];
    [vm_compute; discriminate | vm_compute; reflexivity | apply list_elem_of_here
    | vm_compute; reflexivity | intros _; vm_compute; reflexivity |].
  destruct (Hans (mkUp 204 None "") eq_refl) as [_ Href].
  destruct (Href eq_refl) as (Hs & _ & _ & Hp).
  split; [exact Hs | exact Hp].
Defined.

(** ** The older worker *)

(** X17. Every answer of the older worker has [Access-Control-Allow-Origin]
    set to [env.ALLOWED_ORIGIN], or [*] when that is unset or empty,
    whatever origin the request declares; it allows the [Content-Type]
    header only, and sets neither [Vary] nor [X-Cache]. *)
Theorem legacy_fetch_cors (w : World) (env : Env) (request : Request) :
  let hdr := resp_headers (LegacyWorker.fetch w env request).1 in
  hdr !! "Access-Control-Allow-Origin" = Some (JS.str_or (ALLOWED_ORIGIN env) "*")
  ∧ hdr !! "Access-Control-Allow-Methods" = Some "GET, POST, OPTIONS"
  ∧ hdr !! "Access-Control-Allow-Headers" = Some "Content-Type"
  ∧ hdr !! "Access-Control-Max-Age" = Some "86400"
  ∧ hdr !! "Vary" = None
  ∧ hdr !! "X-Cache" = None.
Proof.
  intros hdr. subst hdr.
  assert (Hin : ∃ r, (LegacyWorker.fetch w env request).1 = Legacy.corsResponse env r
                     ∧ resp_headers r !! "Vary" = None
                     ∧ resp_headers r !! "X-Cache" = None).
  { unfold LegacyWorker.fetch.
    destruct (String.eqb _ "OPTIONS"); [eexists; split_and!; reflexivity|].
    destruct (_ || _); [eexists; split_and!; reflexivity|].
    destruct (matchRoute _) as [[prefix route]|]; [|eexists; split_and!; reflexivity].
    cbv zeta. destruct (upstream w _) as [msg|u];
      [eexists; split_and!; reflexivity|].
    destruct (new_Response _ _ _ _) as [msg|r] eqn:Hn;
      [eexists; split_and!; reflexivity|].
    apply new_Response_inr in Hn as [-> _].
    eexists; split_and!; reflexivity. }
  destruct Hin as (r & -> & Hv & Hx).
  unfold Legacy.corsResponse. cbn [resp_headers].
  split_and!.
  - rewrite !(lookup_insert_ne _ _ "Access-Control-Allow-Origin") by discriminate.
    apply lookup_insert_eq.
  - rewrite !(lookup_insert_ne _ _ "Access-Control-Allow-Methods") by discriminate.
    apply lookup_insert_eq.
  - rewrite !(lookup_insert_ne _ _ "Access-Control-Allow-Headers") by discriminate.
    apply lookup_insert_eq.
  - apply lookup_insert_eq.
  - rewrite !lookup_insert_ne by discriminate. exact Hv.
  - rewrite !lookup_insert_ne by discriminate. exact Hx.
Qed.

Lemma calls_not_preflight w env request st rq :
  rq ∈ upstream_calls (effects (fetch w env request st)) → method request ≠ "OPTIONS".
Proof.
  intros Hin Hm. rewrite fetch_options in Hin by exact Hm. inversion Hin.
Qed.

(** X18. The two workers call the same upstream.  Whenever the newer worker
    makes an outbound call on a generic route, the older worker, given the
    same request, makes exactly one call, to the same URL, with the same
    method, no body, and the same headers except [User-Agent]. *)
Theorem legacy_same_call (w : World) (env : Env) (request : Request) (st : Store)
    (rq : UpstreamRequest) :
  rq ∈ upstream_calls (effects (fetch w env request st)) →
  ¬ (pathname request = "/api/anthropic" ∧ method request = "POST") →
  ∃ rq', (LegacyWorker.fetch w env request).2 = [rq']
         ∧ rq_url rq' = rq_url rq
         ∧ rq_method rq' = rq_method rq
         ∧ rq_body rq' = None ∧ rq_body rq = None
         ∧ ∀ k v, k ≠ "User-Agent" →
                  ((k, v) ∈ rq_headers rq' ↔ (k, v) ∈ rq_headers rq).
Proof.
  intros Hin Hna. pose proof (calls_not_preflight _ _ _ _ _ Hin) as Hm.
  destruct (upstream_calls_cases _ _ _ _ _ Hin)
    as [(Hpost & Hp & _) | (_ & prefix & route & Hr & Hsw & ->)]; [tauto|].
  destruct (matchRoute_member _ _ _ Hr Hsw) as [Hmatch _].
  destruct (registered_not_health _ _ _ Hr Hsw) as [Hp1 Hp2].
  exists (mkRq (targetUrl_of prefix route env request) (method request)
            (LegacyWorker.requestHeaders_of route env) None).
  split_and!; try reflexivity.
  - unfold LegacyWorker.fetch.
    apply String.eqb_neq in Hm, Hp1, Hp2. rewrite Hm, Hp1, Hp2, Hmatch.
    cbn [orb]. cbv zeta. destruct (upstream w _) as [msg|u]; [reflexivity|].
    destruct (new_Response _ _ _ _); reflexivity.
  - intros k v Hk. cbn [generic_request rq_headers].
    unfold LegacyWorker.requestHeaders_of, requestHeaders_of.
    rewrite !elem_of_app, !elem_of_cons, !elem_of_nil.
    split; intros [[H|[H|[]]]|H]; auto; injection H as -> ->; congruence.
Qed.

Lemma legacy_same_call_witness :
  map rq_url (LegacyWorker.fetch Sample.quiet Sample.all_keys Sample2.company).2
  = ["https://cbeapi.be/api/company/0123456789"].
Proof.
  destruct (legacy_same_call Sample.quiet Sample.all_keys Sample2.company
              Sample.fresh
              (generic_request "/api/kbo" Sample2.kbo Sample.all_keys Sample2.company))
    as (rq' & Hc & Hu & _).
  - vm_compute. apply list_elem_of_here.
  - vm_compute. intros [Hp _]. discriminate Hp.
  - rewrite Hc. cbn [map]. rewrite Hu. vm_compute. reflexivity.
Defined.

(** X19. The older worker has no Anthropic route: any request that is not
    OPTIONS, not a health check and whose path starts with none of the
    three registered prefixes, a POST to [/api/anthropic] included, is
    answered 404 with the three prefixes as the list of routes, and no
    outbound call is made. *)
Theorem legacy_not_found (w : World) (env : Env) (request : Request) :
  method request ≠ "OPTIONS" →
  pathname request ≠ "/" → pathname request ≠ "/health" →
  (∀ prefix route,
     (prefix, route) ∈ API_ROUTES → JS.startsWith (pathname request) prefix = false) →
  resp_status (LegacyWorker.fetch w env request).1 = 404
  ∧ resp_body (LegacyWorker.fetch w env request).1 =
      BJson (JS.VObj
               [ ("error", JS.VStr "Route niet gevonden");
                 ("routes",
                  JS.VArr [ JS.VStr "/api/kbo"; JS.VStr "/api/gnews";
                            JS.VStr "/api/finnhub" ]) ])
  ∧ (LegacyWorker.fetch w env request).2 = [].
Proof.
  intros Hm Hp1 Hp2 Hno. apply matchRoute_none in Hno.
  unfold LegacyWorker.fetch.
  apply String.eqb_neq in Hm, Hp1, Hp2. rewrite Hm, Hp1, Hp2, Hno.
  cbn [orb]. split_and!; reflexivity.
Qed.

Lemma legacy_not_found_witness :
  resp_status (LegacyWorker.fetch Sample.quiet Sample.all_keys Sample2.chat).1 = 404.
Proof.
  refine (proj1 (legacy_not_found Sample.quiet Sample.all_keys Sample2.chat _ _ _ _));
    try (vm_compute; discriminate).
  intros prefix route Hin. unfold API_ROUTES in Hin.
  rewrite !elem_of_cons, elem_of_nil in Hin.
  destruct Hin as [H|[H|[H|[]]]]; injection H as -> ->; vm_compute; reflexivity.
Defined.

(** ** Frames *)

(** X20. Only a GET on a cacheable path can change the response cache: a
    run of any other request (another method, or a path that does not
    start with [/api/kbo]) returns the cache it was given, whatever the
    upstream answers. *)
Theorem fetch_cache_frame (w : World) (env : Env) (request : Request) (st : Store) :
  method request ≠ "GET" ∨ JS.startsWith (pathname request) "/api/kbo" = false →
  responseCache (store (fetch w env request st)) = responseCache st
  ∧ cache_puts (effects (fetch w env request st)) = []
  ∧ xcache_of (fetch w env request st) ≠ Some "HIT".
Proof.
  intros Hno.
  assert (Hl : looks_up request = false).
  { unfold looks_up. rewrite cacheable_kbo. apply andb_false_iff.
    destruct Hno as [Hm|Hp]; [left; apply String.eqb_neq; exact Hm | right; exact Hp]. }
  assert (Hst : ∀ u, store_it request u = false).
  { intros u. destruct (store_it request u) eqn:Hs; [|reflexivity].
    apply store_it_spec in Hs as (Hm & Hp & _).
    destruct Hno as [Hm'|Hp']; congruence. }
  destruct (fetch_cases w env request st)
    as [(r & st' & effs & Hf & Hx & Hc & Hp & _) | (_ & _ & _ & Hrun)].
  - rewrite Hf. unfold xcache_of.
    cbn [store effects response mbind option_bind]. rewrite xcache_cors, Hx.
    split_and!; [exact Hc | exact Hp | discriminate].
  - remember (fetch w env request st) as out eqn:Ho. clear Ho.
    destruct Hrun as [Hr | prefix route e r Hr Hl' Hk Hlt Hh
                     | prefix route e msg Hr Hl' Hk Hlt Hh
                     | prefix route msg Hr Hn Hup
                     | prefix route u a Hr Hn Hup Hans];
      unfold xcache_of;
      cbn [store effects response responseCache mbind option_bind];
      rewrite ?xcache_cors.
    + split_and!; [reflexivity | reflexivity | discriminate].
    + congruence.
    + congruence.
    + rewrite puts_of_failed. unfold cache_after_get. rewrite Hl.
      split_and!; [reflexivity | reflexivity | discriminate].
    + rewrite puts_of_run, Hst. unfold cache_after_get. rewrite Hl.
      split_and!; [reflexivity | reflexivity |].
      apply (xcache_miss_or_502 _ w u). exact Hans.
Qed.

Lemma fetch_cache_frame_witness :
  responseCache
    (store (fetch Sample.quiet Sample.all_keys
              (Sample.from_client "POST" "/api/kbo/company" "" Sample.no_body)
              Sample.cached))
  = responseCache Sample.cached.
Proof.
  refine (proj1 (fetch_cache_frame Sample.quiet Sample.all_keys
            (Sample.from_client "POST" "/api/kbo/company" "" Sample.no_body)
            Sample.cached _)).
  left. vm_compute. discriminate.
Defined.

(** X21. The data-lookup route's headers.  Every outbound call of a request
    whose path starts with [/api/kbo] carries [Accept-Language: nl],
    [Accept: application/json] and the proxy's [User-Agent]; it carries an
    [Authorization] header exactly when [env.CBEAPI_TOKEN] is set and not
    empty, and otherwise goes out without credential. *)
Theorem kbo_call_headers (w : World) (env : Env) (request : Request) (st : Store)
    (rq : UpstreamRequest) :
  rq ∈ upstream_calls (effects (fetch w env request st)) →
  JS.startsWith (pathname request) "/api/kbo" = true →
  ("Accept-Language", "nl") ∈ rq_headers rq
  ∧ ("Accept", "application/json") ∈ rq_headers rq
  ∧ ("User-Agent", "CheevO-Decision-Intelligence/2.0") ∈ rq_headers rq
  ∧ ((∃ v, ("Authorization", v) ∈ rq_headers rq) ↔
     JS.present (CBEAPI_TOKEN env) = true).
Proof.
  intros Hin Hkbo.
  destruct (kbo_path _ Hkbo) as (_ & _ & Hna & Hhead).
  destruct (upstream_calls_cases _ _ _ _ _ Hin)
    as [(_ & Hp & _) | (_ & prefix & route & Hr & Hsw & ->)]; [contradiction|].
  destruct (matchRoute_member _ _ _ Hr Hsw) as [Hmatch _].
  rewrite Hhead in Hmatch. injection Hmatch as <- <-.
  cbn [generic_request rq_headers].
  unfold requestHeaders_of, kbo_addHeaders. cbn [addHeaders].
  destruct (CBEAPI_TOKEN env) as [t|]; [destruct (JS.present (Some t)) eqn:Hpres|];
    cbn [app]; rewrite !elem_of_cons, !elem_of_nil;
    (split_and!; [tauto | tauto | tauto |]).
  - split; [reflexivity | intros _; exists ("Bearer " +:+ t)].
    rewrite !elem_of_cons. tauto.
  - split; [|discriminate]. intros [v Hv].
    rewrite !elem_of_cons, elem_of_nil in Hv.
    destruct Hv as [Hv|[Hv|[Hv|[]]]]; discriminate Hv.
  - split; [|discriminate]. intros [v Hv].
    rewrite !elem_of_cons, elem_of_nil in Hv.
    destruct Hv as [Hv|[Hv|[Hv|[]]]]; discriminate Hv.
Qed.

Lemma kbo_call_headers_witness :
  ("Accept-Language", "nl")
    ∈ rq_headers (generic_request "/api/kbo" Sample2.kbo Sample.no_keys Sample2.company).
Proof.
  refine (proj1 (kbo_call_headers Sample.quiet Sample.no_keys Sample2.company
            Sample.fresh
            (generic_request "/api/kbo" Sample2.kbo Sample.no_keys Sample2.company)
            _ _)).
  - vm_compute. apply list_elem_of_here.
  - vm_compute. reflexivity.
Defined.
